(** * Job extractor: extraction, structuring and report pipeline

    A shallow embedding of three API routes of the job-extractor
    application: [extract-to-excel] (a batch of URLs turned into a
    spreadsheet), [preview-extraction] (one URL, with an optional probe of
    the credential and structuring) and [extract-content] (stand-alone
    extraction), together with the properties their specification states
    about them. The fourth route, [generate-content], only forwards a prompt
    and is not modelled.

    JavaScript strings are sequences of UTF-16 code units, so [length] and
    [substring] count code units. Values parsed from JSON are dynamically
    typed: a record is the object the code builds, not the interface it is
    cast to. Network calls, the clock and the timer are the events of a
    small interaction type; a run against an arbitrary stateful environment
    returns the result with the trace of events. [cheerio.load],
    [JSON.parse] and [XLSX.write] are parameters that may throw; reading
    the body of a request may throw as well; writing to the console is
    left out. *)

From stdpp Require Import prelude strings gmap.
From Stdlib Require Import Ascii DecimalString.

Local Open Scope N_scope.
Set Warnings "-register-all".

(** ** JavaScript strings *)

(** A string is the list of its UTF-16 code units. *)
Definition jsstring := list N.

(** [js] reads a literal of this file (UTF-8 bytes) as the JavaScript string
    it denotes. Ill-formed byte sequences decode to U+FFFD. *)
Fixpoint js (s : string) : jsstring :=
  match s with
  | EmptyString => []
  | String a r =>
    let b0 := N_of_ascii a in
    if b0 <? 128 then b0 :: js r
    else if b0 <? 224 then
      match r with
      | String b r1 =>
        N.lor (N.shiftl (N.land b0 31) 6) (N.land (N_of_ascii b) 63) :: js r1
      | _ => [65533]
      end
    else if b0 <? 240 then
      match r with
      | String b (String c r2) =>
        N.lor (N.shiftl (N.land b0 15) 12)
          (N.lor (N.shiftl (N.land (N_of_ascii b) 63) 6)
                 (N.land (N_of_ascii c) 63)) :: js r2
      | _ => [65533]
      end
    else
      match r with
      | String b (String c (String d r3)) =>
        let cp :=
          N.lor (N.shiftl (N.land b0 7) 18)
            (N.lor (N.shiftl (N.land (N_of_ascii b) 63) 12)
               (N.lor (N.shiftl (N.land (N_of_ascii c) 63) 6)
                      (N.land (N_of_ascii d) 63))) in
        let v := cp - 65536 in
        (55296 + N.shiftr v 10) :: (56320 + N.land v 1023) :: js r3
      | _ => [65533]
      end
  end.

(** Literals of the source written with double quotes inside: in this file
    they are written with single quotes, which [jsq] turns back. *)
Definition jsq (s : string) : jsstring :=
  map (fun c => if c =? 39 then 34 else c) (js s).

(** [String(n)] for a non-negative integer. *)
Definition N_to_js (n : N) : jsstring :=
  js (NilZero.string_of_uint (N.to_uint n)).

(** Truthiness of a string: [''] is the only falsy one. *)
Definition truthy_str (s : jsstring) : bool :=
  match s with [] => false | _ => true end.

(** [s.substring(0, n)]. *)
Definition substring0 (n : nat) (s : jsstring) : jsstring := take n s.

(** The characters [\s] matches and [trim] strips: WhiteSpace and
    LineTerminator of ECMAScript. *)
Definition is_space (c : N) : bool :=
  (c =? 9) || (c =? 10) || (c =? 11) || (c =? 12) || (c =? 13) || (c =? 32)
  || (c =? 160) || (c =? 5760) || ((8192 <=? c) && (c <=? 8202))
  || (c =? 8232) || (c =? 8233) || (c =? 8239) || (c =? 8287)
  || (c =? 12288) || (c =? 65279).

Fixpoint trimStart (s : jsstring) : jsstring :=
  match s with
  | [] => []
  | c :: r => if is_space c then trimStart r else s
  end.

Fixpoint trimEnd (s : jsstring) : jsstring :=
  match s with
  | [] => []
  | c :: r =>
    match trimEnd r with
    | [] => if is_space c then [] else [c]
    | r' => c :: r'
    end
  end.

Definition trim (s : jsstring) : jsstring := trimEnd (trimStart s).

(** [s.replace(/\s+/g, ' ')]: [in_run] tells that the previous character
    belonged to the run of white space being replaced. *)
Fixpoint replace_spaces (in_run : bool) (s : jsstring) : jsstring :=
  match s with
  | [] => []
  | c :: r =>
    if is_space c
    then (if in_run then replace_spaces true r else 32 :: replace_spaces true r)
    else c :: replace_spaces false r
  end.

(** [s.replace(/\n+/g, '\n')]. *)
Fixpoint replace_newlines (in_run : bool) (s : jsstring) : jsstring :=
  match s with
  | [] => []
  | c :: r =>
    if c =? 10
    then (if in_run then replace_newlines true r else 10 :: replace_newlines true r)
    else c :: replace_newlines false r
  end.

(** The clean-up chain of the three extractors:
    [.replace(/\s+/g, ' ').replace(/\n+/g, '\n').trim()]. *)
Definition cleanText (s : jsstring) : jsstring :=
  trim (replace_newlines false (replace_spaces false s)).

(** ** Dates *)

(** Year, month and day of the proleptic Gregorian calendar, from the number
    of days since 1970-01-01. *)
Definition civil_from_days (days : N) : N * N * N :=
  let z := days + 719468 in
  let era := z / 146097 in
  let doe := z mod 146097 in
  let yoe := (doe - doe / 1460 + doe / 36524 - doe / 146096) / 365 in
  let y := yoe + era * 400 in
  let doy := doe - (365 * yoe + yoe / 4 - yoe / 100) in
  let mp := (5 * doy + 2) / 153 in
  let d := doy - (153 * mp + 2) / 5 + 1 in
  let m := if mp <? 10 then mp + 3 else mp - 9 in
  (if m <=? 2 then y + 1 else y, m, d).

Definition pad (width : nat) (n : N) : jsstring :=
  let d := N_to_js n in replicate (width - length d) 48 ++ d.

(** [new Date(t).toISOString()] for a time value [t] in milliseconds since
    the epoch, as the clock returns them (not before 1970). *)
Definition toISOString (t : N) : jsstring :=
  let '(y, m, d) := civil_from_days (t / 86400000) in
  let ms := t mod 86400000 in
  (if y <=? 9999 then pad 4 y else 43 :: pad 6 y)
  ++ js "-" ++ pad 2 m ++ js "-" ++ pad 2 d ++ js "T"
  ++ pad 2 (ms / 3600000) ++ js ":" ++ pad 2 (ms / 60000 mod 60) ++ js ":"
  ++ pad 2 (ms / 1000 mod 60) ++ js "." ++ pad 3 (ms mod 1000) ++ js "Z".

(** [iso.split('T')[0]]. *)
Fixpoint before_T (s : jsstring) : jsstring :=
  match s with
  | [] => []
  | c :: r => if c =? 84 then [] else c :: before_T r
  end.

(** ** JavaScript values *)

(** The values [JSON.parse] builds. A number is held as the text JavaScript
    prints it as, which identifies it (both zeros print as [0]); an object
    is the list of its own properties in insertion order. Reading a property
    that is not there gives [undefined], here [None]. *)
Inductive json :=
| JNull
| JBool (b : bool)
| JNum (text : jsstring)
| JStr (s : jsstring)
| JArr (items : list json)
| JObj (props : list (jsstring * json)).

Definition object := list (jsstring * json).

Definition jsstring_eqb (a b : jsstring) : bool := bool_decide (a = b).

Fixpoint get_prop (k : jsstring) (o : object) : option json :=
  match o with
  | [] => None
  | (k', v) :: r => if jsstring_eqb k' k then Some v else get_prop k r
  end.

(** Defining a property: an existing one keeps its place. *)
Fixpoint set_prop (k : jsstring) (v : json) (o : object) : object :=
  match o with
  | [] => [(k, v)]
  | (k', v') :: r =>
    if jsstring_eqb k' k then (k, v) :: r else (k', v') :: set_prop k v r
  end.

(** ToBoolean. *)
Definition truthy (v : option json) : bool :=
  match v with
  | None | Some JNull => false
  | Some (JBool b) => b
  | Some (JNum t) => negb (jsstring_eqb t (js "0") || jsstring_eqb t (js "NaN"))
  | Some (JStr s) => truthy_str s
  | Some (JArr _) | Some (JObj _) => true
  end.

(** ** Exceptions *)

(** What the code can catch: an error of axios ([axios.isAxiosError]) with
    [error.response?.status], [error.response?.data?.error?.message] and
    [error.message], or any other [Error] instance with its name ([Error],
    [TypeError], [SyntaxError]) and message. *)
Inductive exn :=
| AxiosError (status : option N) (apiMessage : option jsstring) (message : jsstring)
| JsError (name : string) (message : jsstring).

(** Sequencing of computations that may throw. *)
Definition and_then {A B} (r : exn + A) (f : A -> exn + B) : exn + B :=
  match r with
  | inl e => inl e
  | inr a => f a
  end.

Notation "x <-? r ;; q" := (and_then r (fun x => q))
  (at level 100, r at next level, right associativity).

Fixpoint map_throwing {A B} (f : A -> exn + B) (l : list A) : exn + list B :=
  match l with
  | [] => inr []
  | a :: r => b <-? f a ;; bs <-? map_throwing f r ;; inr (b :: bs)
  end.

(** [array.forEach] and the like with a callback that may throw: the state
    after the last element, or the first error. *)
Fixpoint foldl_throwing {A B} (f : B -> A -> exn + B) (b : B) (l : list A)
  : exn + B :=
  match l with
  | [] => inr b
  | a :: r => b' <-? f b a ;; foldl_throwing f b' r
  end.

(** ** Conversion to strings *)

Fixpoint join_with (sep : jsstring) (l : list jsstring) : jsstring :=
  match l with
  | [] => []
  | [x] => x
  | x :: r => x ++ sep ++ join_with sep r
  end.

(** ToString, as applied to a property key and to the elements of an array
    by [Array.prototype.join]. An object parsed from JSON inherits
    [Object.prototype.toString] unless it has a property [toString] of its
    own, which is never callable: the conversion then tries the inherited
    [valueOf], which answers the object itself, and throws. An array is
    converted by [join], where [null] elements print as the empty string. *)
Fixpoint ToString (v : json) : exn + jsstring :=
  match v with
  | JNull => inr (js "null")
  | JBool true => inr (js "true")
  | JBool false => inr (js "false")
  | JNum t => inr t
  | JStr s => inr s
  | JArr items =>
    texts <-? map_throwing
                (fun x => match x with JNull => inr [] | _ => ToString x end)
                items ;;
    inr (join_with (js ",") texts)
  | JObj props =>
    match get_prop (js "toString") props with
    | Some _ =>
      inl (JsError "TypeError" (js "Cannot convert object to primitive value"))
    | None => inr (js "[object Object]")
    end
  end.

(** [items.join(sep)]. *)
Definition join (sep : jsstring) (items : list json) : exn + jsstring :=
  texts <-? map_throwing
              (fun x => match x with JNull => inr [] | _ => ToString x end)
              items ;;
  inr (join_with sep texts).

(** [a || b] for a string [a] that may be [undefined]. *)
Definition or_else (a : option jsstring) (b : jsstring) : jsstring :=
  match a with
  | Some m => if truthy_str m then m else b
  | None => b
  end.

(** [error.response?.data?.error?.message || error.message]. *)
Definition apiErrorMessage (apiMessage : option jsstring) (message : jsstring)
  : jsstring :=
  or_else apiMessage message.

(** A status inside a template literal. *)
Definition status_text (status : option N) : jsstring :=
  match status with
  | Some n => N_to_js n
  | None => js "undefined"
  end.

(** [v.k] for one of the property names the report builder reads: none of
    them exists on a built-in prototype, so only an object's own property
    can answer; reading from [undefined] or [null] throws. *)
Definition member (v : option json) (k : string) : exn + option json :=
  match v with
  | None =>
    inl (JsError "TypeError"
           (js "Cannot read properties of undefined (reading '"
            ++ js k ++ js "')"))
  | Some JNull =>
    inl (JsError "TypeError"
           (js "Cannot read properties of null (reading '"
            ++ js k ++ js "')"))
  | Some (JObj o) => inr (get_prop (js k) o)
  | Some _ => inr None
  end.

(** [v.join(', ')]: only arrays have the method. *)
Definition call_join (path : string) (v : option json) : exn + jsstring :=
  match v with
  | Some (JArr items) => join (js ", ") items
  | None =>
    inl (JsError "TypeError"
           (js "Cannot read properties of undefined (reading 'join')"))
  | Some JNull =>
    inl (JsError "TypeError"
           (js "Cannot read properties of null (reading 'join')"))
  | Some _ =>
    inl (JsError "TypeError" (js path ++ js ".join is not a function"))
  end.

(** ** Documents *)

(** The tree cheerio builds from markup: text nodes and elements with a tag
    name, class names and children. *)
Inductive node :=
| Text (data : jsstring)
| Element (tag : string) (classes : list string) (children : list node).

Definition document := list node.

(** The selectors the routes use: a tag name or a class name. *)
Inductive selector :=
| Tag (name : string)
| Class (name : string).

#[global] Instance selector_eq_dec : EqDecision selector.
Proof. solve_decision. Defined.

Definition matches (sel : selector) (n : node) : bool :=
  match n, sel with
  | Element t _ _, Tag name => bool_decide (t = name)
  | Element _ cs _, Class name => bool_decide (name ∈ cs)
  | Text _, _ => false
  end.

(** Text content of a node: the text nodes below it, concatenated. *)
Fixpoint textContent (n : node) : jsstring :=
  match n with
  | Text s => s
  | Element _ _ cs => concat (map textContent cs)
  end.

(** [$(group).remove()]: every element matching one of the selectors goes,
    with all it contains. *)
Fixpoint remove_from (group : list selector) (n : node) : list node :=
  match n with
  | Text s => [Text s]
  | Element t cs children =>
    if existsb (fun sel => matches sel n) group then []
    else [Element t cs (concat (map (remove_from group) children))]
  end.

Definition remove (group : list selector) (doc : document) : document :=
  concat (map (remove_from group) doc).

(** [$(sel)]: the matching elements, in document order. *)
Fixpoint select_in (sel : selector) (n : node) : list node :=
  match n with
  | Text _ => []
  | Element _ _ children =>
    (if matches sel n then [n] else []) ++ concat (map (select_in sel) children)
  end.

Definition select (sel : selector) (doc : document) : list node :=
  concat (map (select_in sel) doc).

(** [$(sel).text()]: the text contents of the matched elements, concatenated;
    empty when nothing matches. *)
Definition text (doc : document) (sel : selector) : jsstring :=
  concat (map textContent (select sel doc)).

(** [$(sel).first().text()]. *)
Definition first_text (doc : document) (sel : selector) : jsstring :=
  match select sel doc with
  | [] => []
  | n :: _ => textContent n
  end.

(** The elements every extractor removes before reading any text. *)
Definition noise : list selector :=
  [Tag "script"; Tag "style"; Tag "nav"; Tag "header"; Tag "footer";
   Tag "aside"; Class "advertisement"; Class "ads"; Class "sidebar"].

Definition contentSelectors : list selector :=
  [Tag "main"; Class "content"; Class "main-content"; Class "job-description";
   Class "job-detail"; Class "post-content"; Tag "article";
   Class "entry-content"].

(** One turn of the loop over [contentSelectors]: a candidate replaces
    [mainContent] when its trimmed text is not empty and strictly longer. *)
Definition consider (doc : document) (mainContent : jsstring) (sel : selector)
  : jsstring :=
  let content := trim (text doc sel) in
  if truthy_str content && bool_decide (length mainContent < length content)%nat
  then content else mainContent.

(** The loop, then the fall-back to the body text when it left
    [mainContent] empty. *)
Definition selectMainContent (doc : document) : jsstring :=
  let mainContent := foldl (consider doc) [] contentSelectors in
  if truthy_str mainContent then mainContent else trim (text doc (Tag "body")).

(** ** Effects *)

(** A chat-completion request to the structuring service: the bearer
    credential, the [X-Title] header, the user message, [max_tokens] and the
    temperature in tenths when one is sent. Model name, URL and the other
    headers are the same in every call. *)
Record chat_request := ChatRequest {
  rq_apiKey : jsstring;
  rq_title : jsstring;
  rq_content : jsstring;
  rq_max_tokens : N;
  rq_temperature : option N
}.

(** A response axios resolved: its status, and what evaluating
    [response.data.choices[0].message.content.match(..)] starts from: the
    reply text, or the message of the [TypeError] thrown when the body has
    no string there. *)
Record chat_response := ChatResponse {
  rs_status : N;
  rs_content : jsstring + jsstring
}.

(** Programs: the awaited calls of the routes, each with its continuation.
    [HttpGet] is [axios.get] (browser-like identity header, 10 s timeout)
    answering [response.data], which is the body as a string or, when the
    body is JSON text, the value axios parsed it into; [HttpPost] is
    [axios.post] to the chat endpoint, [SetTimeout] the awaited timer and
    [DateNow] the clock read by [new Date()]. *)
Inductive prog (A : Type) : Type :=
| Ret (a : A)
| HttpGet (url : jsstring) (k : exn + json -> prog A)
| HttpPost (rq : chat_request) (k : exn + chat_response -> prog A)
| SetTimeout (ms : N) (k : prog A)
| DateNow (k : N -> prog A).

Arguments Ret {A} a.
Arguments HttpGet {A} url k.
Arguments HttpPost {A} rq k.
Arguments SetTimeout {A} ms k.
Arguments DateNow {A} k.

Fixpoint bind {A B} (p : prog A) (f : A -> prog B) : prog B :=
  match p with
  | Ret a => f a
  | HttpGet url k => HttpGet url (fun r => bind (k r) f)
  | HttpPost rq k => HttpPost rq (fun r => bind (k r) f)
  | SetTimeout ms k => SetTimeout ms (bind k f)
  | DateNow k => DateNow (fun t => bind (k t) f)
  end.

Notation "x <- p ;; q" := (bind p (fun x => q))
  (at level 100, p at next level, right associativity).
Notation "p ;;; q" := (bind p (fun _ => q))
  (at level 100, right associativity).

Definition axios_get (url : jsstring) : prog (exn + json) :=
  HttpGet url Ret.
Definition axios_post (rq : chat_request) : prog (exn + chat_response) :=
  HttpPost rq Ret.
Definition sleep (ms : N) : prog unit := SetTimeout ms (Ret tt).
Definition now : prog N := DateNow Ret.

(** The environment: how the network and the clock answer, from a state of
    its own, so that the answers may depend on everything asked before. *)
Record world (S : Type) := World {
  on_get : S -> jsstring -> (exn + json) * S;
  on_post : S -> chat_request -> (exn + chat_response) * S;
  on_now : S -> N * S
}.

Arguments on_get {S} w s url.
Arguments on_post {S} w s rq.
Arguments on_now {S} w s.

Inductive event :=
| Got (url : jsstring) (answer : exn + json)
| Posted (rq : chat_request) (answer : exn + chat_response)
| Slept (ms : N)
| Clock (t : N).

Record outcome (S A : Type) := Outcome {
  value : A;
  trace : list event;
  final : S
}.

Arguments Outcome {S A} value trace final.
Arguments value {S A} o.
Arguments trace {S A} o.
Arguments final {S A} o.

Definition logged {S A} (e : event) (o : outcome S A) : outcome S A :=
  Outcome (value o) (e :: trace o) (final o).

Fixpoint run {S A} (w : world S) (p : prog A) (s : S) : outcome S A :=
  match p with
  | Ret a => Outcome a [] s
  | HttpGet url k =>
    let '(r, s') := on_get w s url in logged (Got url r) (run w (k r) s')
  | HttpPost rq k =>
    let '(r, s') := on_post w s rq in logged (Posted rq r) (run w (k r) s')
  | SetTimeout ms k => logged (Slept ms) (run w k s)
  | DateNow k =>
    let '(t, s') := on_now w s in logged (Clock t) (run w (k t) s')
  end.

(** What a route gets from [await request.json()] and the destructuring
    of its value: the fields it reads, or the error thrown, with its
    message: a [SyntaxError] when the body is not JSON text, a [TypeError]
    when the body is [null], which has no fields to read. *)
Inductive request_body (A : Type) : Type :=
| NotJson (message : jsstring)
| NullBody (message : jsstring)
| Fields (fields : A).

Arguments NotJson {A} message.
Arguments NullBody {A} message.
Arguments Fields {A} fields.

Definition read_body {A} (b : request_body A) : exn + A :=
  match b with
  | NotJson message => inl (JsError "SyntaxError" message)
  | NullBody message => inl (JsError "TypeError" message)
  | Fields fields => inr fields
  end.

(** The error a library function throws, from its message. *)
Definition thrown {A} (r : jsstring + A) : exn + A :=
  match r with
  | inl message => inl (JsError "Error" message)
  | inr a => inr a
  end.

Definition is_status (status : option N) (n : N) : bool :=
  bool_decide (status = Some n).

(** [if (status)] for [error.response?.status]. *)
Definition truthy_status (status : option N) : bool :=
  match status with
  | Some n => negb (n =? 0)
  | None => false
  end.

(** ** The reply of the structuring service *)

(** What follows the first opening brace. *)
Fixpoint after_first_open (s : jsstring) : option jsstring :=
  match s with
  | [] => None
  | c :: r => if c =? 123 then Some r else after_first_open r
  end.

(** The longest prefix ending with a closing brace. *)
Fixpoint upto_last_close (s : jsstring) : option jsstring :=
  match s with
  | [] => None
  | c :: r =>
    match upto_last_close r with
    | Some p => Some (c :: p)
    | None => if c =? 125 then Some [c] else None
    end
  end.

(** [aiResponse.match(/\{[\s\S]*\}/)], element 0 of the match: the star is
    greedy and [[\s\S]] matches every character, so the leftmost match runs
    from the first opening brace to the last closing brace after it. *)
Definition jsonMatch (aiResponse : jsstring) : option jsstring :=
  match after_first_open aiResponse with
  | None => None
  | Some r =>
    match upto_last_close r with
    | None => None
    | Some p => Some (123 :: p)
    end
  end.

(** The instruction template around the first 4000 characters of the
    extracted text. *)
Definition structurePrompt_head : jsstring := Eval vm_compute in jsq
"以下の求人ページから抽出されたテキストを分析し、求人情報をJSON形式で構造化してください。

【抽出されたテキスト】
".

Definition structurePrompt_tail : jsstring := Eval vm_compute in jsq
"

【出力形式】
必ず以下のJSON形式で回答してください。情報が見つからない場合は null または空配列を設定してください。数値は必ず数値型で返してください。

{
  'jobTitle': '職種名',
  'companyName': '会社名',
  'location': '勤務地',
  'salary': {
    'min': 最低給与(数値のみ、万円単位),
    'max': 最高給与(数値のみ、万円単位),
    'type': '月給/年収/時給',
    'details': '給与の詳細説明'
  },
  'workingHours': '勤務時間',
  'holidays': '休日・休暇',
  'benefits': ['福利厚生の配列'],
  'requirements': {
    'experience': '必要経験年数や内容',
    'skills': ['必要スキルの配列'],
    'education': '学歴要件'
  },
  'jobDescription': '業務内容の詳細',
  'applicationMethod': '応募方法',
  'employmentType': '正社員/契約社員/派遣/アルバイト等'
}

JSONのみを返してください。説明文は不要です。".

Definition structurePrompt (content : jsstring) : jsstring :=
  structurePrompt_head ++ substring0 4000 content ++ structurePrompt_tail.

Definition structuringRequest (content apiKey : jsstring) : chat_request :=
  {| rq_apiKey := apiKey;
     rq_title := js "Job Data Extractor";
     rq_content := structurePrompt content;
     rq_max_tokens := 2000;
     rq_temperature := Some 3 |}.

(** What both copies of [structureJobData] do with the awaited answer, up
    to [JSON.parse]: [JSON_parse] is that function on a text that starts
    with an opening brace, giving the parsed object or the message of the
    [SyntaxError]. *)
Definition parseReply (JSON_parse : jsstring -> jsstring + object)
    (response : exn + chat_response) : exn + object :=
  response <-? response ;;
  match rs_content response with
  | inl message => inl (JsError "TypeError" message)
  | inr aiResponse =>
    match jsonMatch aiResponse with
    | None => inl (JsError "Error" (js "No valid JSON found in AI response"))
    | Some jsonMatch0 =>
      match JSON_parse jsonMatch0 with
      | inl message => inl (JsError "SyntaxError" message)
      | inr structuredData => inr structuredData
      end
    end
  end.

(** [{ ...structuredData, url, extractedAt }]. *)
Definition withSource (structuredData : object) (url extractedAt : jsstring)
  : object :=
  set_prop (js "extractedAt") (JStr extractedAt)
    (set_prop (js "url") (JStr url) structuredData).

(** The record both [catch] blocks of the batch route build: every
    structured field [null] or empty, the diagnostic in [jobDescription]. *)
Definition fallbackJob (jobDescription url extractedAt : jsstring) : object :=
  [ (js "jobTitle", JNull);
    (js "companyName", JNull);
    (js "location", JNull);
    (js "salary", JObj [ (js "min", JNull); (js "max", JNull);
                         (js "type", JNull); (js "details", JNull) ]);
    (js "workingHours", JNull);
    (js "holidays", JNull);
    (js "benefits", JArr []);
    (js "requirements", JObj [ (js "experience", JNull); (js "skills", JArr []);
                               (js "education", JNull) ]);
    (js "jobDescription", JStr jobDescription);
    (js "applicationMethod", JNull);
    (js "employmentType", JNull);
    (js "url", JStr url);
    (js "extractedAt", JStr extractedAt) ].

(** ** Tables of the report *)

(** A cell holds a value of the record as it is, a number computed by the
    builder, or [new Date(v).toLocaleString('ja-JP')], whose rendering is
    left to the engine. *)
Inductive cell :=
| Value (v : option json)
| Number (n : N)
| LocaleDate (v : option json).

Definition row := list (jsstring * cell).

(** The workbook handed to [XLSX.write]: named sheets of rows, as
    [json_to_sheet] and [book_append_sheet] store them. *)
Definition workbook := list (jsstring * list row).

(** The bytes [XLSX.write] returns. *)
Definition Buffer := list N.

(** [v || '']. *)
Definition or_empty (v : option json) : cell :=
  if truthy v then Value v else Value (Some (JStr [])).

Definition text_cell (s : jsstring) : cell := Value (Some (JStr s)).

(** A value of a counting object: the number the builder stores, or the
    text a [+ 1] on a non-number leaves. *)
Inductive count :=
| Count (n : N)
| Garbled (s : jsstring).

(** The counting objects are created by [{}], so a read of a name they do
    not own finds the member of [Object.prototype] of that name, when there
    is one. [inherited k] is the text such a member turns into under [+]:
    the methods print as native functions, the [__proto__] accessor answers
    the prototype object itself. *)
Definition Object_prototype_methods : list string :=
  ["__defineGetter__"; "__defineSetter__"; "hasOwnProperty";
   "__lookupGetter__"; "__lookupSetter__"; "isPrototypeOf";
   "propertyIsEnumerable"; "toString"; "valueOf"; "toLocaleString"]%string.

Definition inherited (k : jsstring) : option jsstring :=
  if jsstring_eqb k (js "__proto__") then Some (js "[object Object]")
  else if jsstring_eqb k (js "constructor")
  then Some (js "function Object() { [native code] }")
  else if existsb (fun m => jsstring_eqb k (js m)) Object_prototype_methods
  then Some (js "function " ++ k ++ js "() { [native code] }")
  else None.

(** [o[k] = (o[k] || 0) + 1]. Assigning to [__proto__] a value that is not
    an object changes nothing. *)
Definition increment (k : jsstring) (o : gmap jsstring count)
  : gmap jsstring count :=
  match o !! k with
  | Some (Count n) => <[k := Count (n + 1)]> o
  | Some (Garbled s) =>
    if truthy_str s then <[k := Garbled (s ++ js "1")]> o
    else <[k := Count 1]> o
  | None =>
    match inherited k with
    | None => <[k := Count 1]> o
    | Some t =>
      if jsstring_eqb k (js "__proto__") then o
      else <[k := Garbled (t ++ js "1")]> o
    end
  end.

(** [if (v) { o[v] = (o[v] || 0) + 1 }]: the value is converted to a
    property key, which may throw. *)
Definition tally (v : option json) (o : gmap jsstring count)
  : exn + gmap jsstring count :=
  match v with
  | Some x => if truthy v then k <-? ToString x ;; inr (increment k o) else inr o
  | None => inr o
  end.

Record statistics := Statistics {
  total : N;
  byJobTitle : gmap jsstring count;
  byLocation : gmap jsstring count;
  byEmploymentType : gmap jsstring count
}.

(** ** Responses *)

Inductive response :=
| Json (status : N) (body : object)
| Spreadsheet (status : N) (body : Buffer) (disposition : jsstring).

Definition status_of (r : response) : N :=
  match r with
  | Json status _ => status
  | Spreadsheet status _ _ => status
  end.

Definition error_body (message : jsstring) : object :=
  [(js "error", JStr message)].

(** ** Route [extract-to-excel] *)

Module ExtractToExcel.
Section Route.

(** [cheerio.load] on [response.data]: the document, or the message of the
    error it throws (for a body that axios parsed into something that is no
    markup). [JSON.parse] as [parseReply] takes it. [XLSX.write]: the bytes
    of the file, or the message of the error it throws (for a text of more
    than 32767 characters in a cell, for one). *)
Variable cheerio_load : json -> jsstring + document.
Variable JSON_parse : jsstring -> jsstring + object.
Variable XLSX_write : workbook -> jsstring + Buffer.

(** The content of a loaded page. *)
Definition contentOf (doc : document) : jsstring :=
  cleanText (selectMainContent (remove noise doc)).

Definition extractContentFromUrl (url : jsstring) : prog (exn + jsstring) :=
  response <- axios_get url ;;
  match response with
  | inl error => Ret (inl error)
  | inr data =>
    match thrown (cheerio_load data) with
    | inl error => Ret (inl error)
    | inr doc => Ret (inr (contentOf doc))
    end
  end.

(** The message the [catch] block of [structureJobData] settles on. *)
Definition errorMessage_of (error : exn) : jsstring :=
  match error with
  | AxiosError status apiMessage message =>
    if is_status status 402
    then js "OpenRouter API: 残高不足です。アカウントにクレジットを追加してください。"
    else if is_status status 401
    then js "OpenRouter API: APIキーが無効です。正しいAPIキーを入力してください。"
    else if is_status status 429
    then js "OpenRouter API: レート制限に達しました。しばらく待ってから再試行してください。"
    else if truthy_status status
    then js "OpenRouter API エラー (" ++ status_text status ++ js "): "
         ++ apiErrorMessage apiMessage message
    else js "ネットワークエラー: " ++ message
  | JsError _ message => message
  end.

(** The diagnostic stored in [jobDescription] by the [catch] block. *)
Definition diagnostic (errorMessage content : jsstring) : jsstring :=
  js "【AI構造化エラー】" ++ errorMessage
  ++ js "

【抽出された生データ】
" ++ substring0 1000 content
  ++ (if bool_decide (1000 < length content)%nat then js "..." else []).

Definition structureJobData (content url apiKey : jsstring) : prog object :=
  response <- axios_post (structuringRequest content apiKey) ;;
  match parseReply JSON_parse response with
  | inr structuredData =>
    t <- now ;;
    Ret (withSource structuredData url (toISOString t))
  | inl error =>
    t <- now ;;
    Ret (fallbackJob (diagnostic (errorMessage_of error) content) url
           (toISOString t))
  end.

(** Sheet 1, one row of [summaryData]. *)
Definition summaryRow (job : object) : exn + row :=
  let salary := get_prop (js "salary") job in
  min <-? member salary "min" ;;
  max <-? member salary "max" ;;
  type <-? member salary "type" ;;
  inr [ (js "職種", or_empty (get_prop (js "jobTitle") job));
        (js "会社名", or_empty (get_prop (js "companyName") job));
        (js "勤務地", or_empty (get_prop (js "location") job));
        (js "最低給与", or_empty min);
        (js "最高給与", or_empty max);
        (js "給与タイプ", or_empty type);
        (js "雇用形態", or_empty (get_prop (js "employmentType") job));
        (js "URL", Value (get_prop (js "url") job));
        (js "抽出日時", LocaleDate (get_prop (js "extractedAt") job)) ].

(** Sheet 2, the row of [detailData] for the job at [index]. *)
Definition detailRow (index : nat) (job : object) : exn + row :=
  let salary := get_prop (js "salary") job in
  let requirements := get_prop (js "requirements") job in
  details <-? member salary "details" ;;
  benefits <-? call_join "job.benefits" (get_prop (js "benefits") job) ;;
  experience <-? member requirements "experience" ;;
  skills <-? member requirements "skills" ;;
  skills <-? call_join "job.requirements.skills" skills ;;
  education <-? member requirements "education" ;;
  inr [ (js "No.", Number (N.of_nat index + 1));
        (js "職種", or_empty (get_prop (js "jobTitle") job));
        (js "会社名", or_empty (get_prop (js "companyName") job));
        (js "勤務地", or_empty (get_prop (js "location") job));
        (js "給与詳細", or_empty details);
        (js "勤務時間", or_empty (get_prop (js "workingHours") job));
        (js "休日", or_empty (get_prop (js "holidays") job));
        (js "福利厚生", text_cell benefits);
        (js "必要経験", or_empty experience);
        (js "必要スキル", text_cell skills);
        (js "学歴要件", or_empty education);
        (js "業務内容", or_empty (get_prop (js "jobDescription") job));
        (js "応募方法", or_empty (get_prop (js "applicationMethod") job));
        (js "URL", Value (get_prop (js "url") job)) ].

(** Sheet 3: the callback of [jobsData.forEach]. *)
Definition countJob (stats : statistics) (job : object) : exn + statistics :=
  byJobTitle' <-? tally (get_prop (js "jobTitle") job) (byJobTitle stats) ;;
  byLocation' <-? tally (get_prop (js "location") job) (byLocation stats) ;;
  byEmploymentType' <-?
    tally (get_prop (js "employmentType") job) (byEmploymentType stats) ;;
  inr {| total := total stats;
         byJobTitle := byJobTitle';
         byLocation := byLocation';
         byEmploymentType := byEmploymentType' |}.

Definition computeStats (jobsData : list object) : exn + statistics :=
  foldl_throwing countJob
    {| total := N.of_nat (length jobsData); byJobTitle := ∅;
       byLocation := ∅; byEmploymentType := ∅ |}
    jobsData.

Definition statRow (label : jsstring) (v : cell) : row :=
  [(js "項目", text_cell label); (js "値", v)].

Definition count_cell (c : count) : cell :=
  match c with
  | Count n => Number n
  | Garbled s => text_cell s
  end.

(** [Object.entries(o).map(([key, value]) => ...)]; the order in which the
    keys of a group come out is not modelled. *)
Definition entryRows (o : gmap jsstring count) : list row :=
  map (fun '(key, value) => statRow key (count_cell value)) (map_to_list o).

Definition blankRow : row := statRow [] (text_cell []).

Definition statsData (stats : statistics) : list row :=
  [statRow (js "総求人数") (Number (total stats)); blankRow;
   statRow (js "職種別集計") (text_cell [])]
  ++ entryRows (byJobTitle stats)
  ++ [blankRow; statRow (js "勤務地別集計") (text_cell [])]
  ++ entryRows (byLocation stats)
  ++ [blankRow; statRow (js "雇用形態別集計") (text_cell [])]
  ++ entryRows (byEmploymentType stats).

Fixpoint detailRows (index : nat) (jobsData : list object)
  : exn + list row :=
  match jobsData with
  | [] => inr []
  | job :: rest =>
    r <-? detailRow index job ;;
    rs <-? detailRows (S index) rest ;;
    inr (r :: rs)
  end.

(** The workbook with its three sheets, as it is handed to [XLSX.write],
    or the [TypeError] a record of the wrong shape raises while the rows
    are built or the groups counted. *)
Definition buildWorkbook (jobsData : list object) : exn + workbook :=
  summaryData <-? map_throwing summaryRow jobsData ;;
  detailData <-? detailRows 0 jobsData ;;
  stats <-? computeStats jobsData ;;
  inr [ (js "求人一覧", summaryData);
        (js "詳細情報", detailData);
        (js "統計情報", statsData stats) ].

Definition createExcelFile (jobsData : list object) : exn + Buffer :=
  workbook <-? buildWorkbook jobsData ;;
  thrown (XLSX_write workbook).

(** The message the [catch] inside the loop settles on. *)
Definition urlErrorMessage (error : exn) : jsstring :=
  match error with
  | AxiosError status apiMessage message =>
    if is_status status 402
    then js "OpenRouter API: Payment required. Please check your account balance."
    else if is_status status 401
    then js "OpenRouter API: Invalid API key."
    else if is_status status 429
    then js "OpenRouter API: Rate limit exceeded. Please try again later."
    else if truthy_status status
    then js "OpenRouter API Error (" ++ status_text status ++ js "): "
         ++ apiErrorMessage apiMessage message
    else js "Network error: " ++ message
  | JsError _ message => message
  end.

(** The [for (const url of urls)] loop of [POST], [jobsData] being the
    records pushed so far. *)
Fixpoint processUrls (urls : list jsstring) (apiKey : jsstring)
    (jobsData : list object) : prog (list object) :=
  match urls with
  | [] => Ret jobsData
  | url :: rest =>
    content <- extractContentFromUrl url ;;
    match content with
    | inr content =>
      structuredData <- structureJobData content url apiKey ;;
      sleep 1000 ;;;
      processUrls rest apiKey (jobsData ++ [structuredData])
    | inl error =>
      t <- now ;;
      processUrls rest apiKey
        (jobsData ++
         [fallbackJob (js "Error processing URL: " ++ urlErrorMessage error)
            url (toISOString t)])
    end
  end.

(** Message and status of the outermost [catch] of [POST]. *)
Definition failure (error : exn) : jsstring * N :=
  match error with
  | AxiosError status apiMessage message =>
    if is_status status 402
    then (js "OpenRouter API: Payment required. Please check your account balance and try again.", 402)
    else if is_status status 401
    then (js "OpenRouter API: Invalid API key. Please check your API key.", 401)
    else if is_status status 429
    then (js "OpenRouter API: Rate limit exceeded. Please try again later.", 429)
    else if truthy_status status
    then (js "OpenRouter API Error (" ++ status_text status ++ js "): "
          ++ apiErrorMessage apiMessage message, default 500 status)
    else (js "Network error: " ++ message, 500)
  | JsError _ message => (js "Processing error: " ++ message, 500)
  end.

(** The fields read from the body of the request: [urls] when it is an
    array, and [apiKey] when it is there. *)
Record request := Request {
  urls : option (list jsstring);
  apiKey : option jsstring
}.

Definition POST (body : request_body request) : prog response :=
  match read_body body with
  | inl error =>
    let '(errorMessage, statusCode) := failure error in
    Ret (Json statusCode (error_body errorMessage))
  | inr rq =>
    match urls rq with
    | None | Some [] =>
      Ret (Json 400 (error_body (js "URLs array is required")))
    | Some urls =>
      match apiKey rq with
      | None | Some [] =>
        Ret (Json 400 (error_body (js "OpenRouter API key is required")))
      | Some apiKey =>
        jobsData <- processUrls urls apiKey [] ;;
        match createExcelFile jobsData with
        | inr excelBuffer =>
          t <- now ;;
          Ret (Spreadsheet 200 excelBuffer
                 (jsq "attachment; filename='job_data_"
                  ++ before_T (toISOString t) ++ jsq ".xlsx'"))
        | inl error =>
          let '(errorMessage, statusCode) := failure error in
          Ret (Json statusCode (error_body errorMessage))
        end
      end
    end
  end.

End Route.
End ExtractToExcel.

(** ** Route [preview-extraction] *)

Module PreviewExtraction.
Section Route.

Variable cheerio_load : json -> jsstring + document.
Variable JSON_parse : jsstring -> jsstring + object.

Record rawData := RawData {
  title : jsstring;
  h1 : jsstring;
  h2Elements : list jsstring;
  content : jsstring;
  contentLength : nat
}.

(** The extraction proper, on the document loaded from the fetched page. *)
Definition extractContent (loaded : document) : rawData :=
  let doc := remove noise loaded in
  let cleanContent := cleanText (selectMainContent doc) in
  {| title := trim (text doc (Tag "title"));
     h1 := trim (first_text doc (Tag "h1"));
     h2Elements :=
       take 5 (map (fun el => trim (textContent el)) (select (Tag "h2") doc));
     content := cleanContent;
     contentLength := length cleanContent |}.

Definition extractContentFromUrl (url : jsstring) : prog (exn + rawData) :=
  response <- axios_get url ;;
  match response with
  | inl error => Ret (inl error)
  | inr data =>
    match thrown (cheerio_load data) with
    | inl error => Ret (inl error)
    | inr loaded => Ret (inr (extractContent loaded))
    end
  end.

Record validation := Validation {
  valid : bool;
  error : option jsstring
}.

Definition probeRequest (apiKey : jsstring) : chat_request :=
  {| rq_apiKey := apiKey;
     rq_title := js "API Key Validation";
     rq_content := js "Hello";
     rq_max_tokens := 10;
     rq_temperature := None |}.

(** The classification of the answer to the probe. *)
Definition classify (answer : exn + chat_response) : validation :=
  match answer with
  | inr response => Validation (rs_status response =? 200) None
  | inl (AxiosError status apiMessage message) =>
    if is_status status 402
    then Validation false (Some (js "OpenRouter API: 残高不足です。アカウントにクレジットを追加してください。"))
    else if is_status status 401
    then Validation false (Some (js "OpenRouter API: APIキーが無効です。正しいAPIキーを入力してください。"))
    else if is_status status 429
    then Validation false (Some (js "OpenRouter API: レート制限に達しました。しばらく待ってから再試行してください。"))
    else Validation false
           (Some (js "OpenRouter API エラー (" ++ status_text status ++ js "): "
                  ++ apiErrorMessage apiMessage message))
  | inl (JsError _ _) =>
    Validation false (Some (js "APIキーの検証に失敗しました。"))
  end.

Definition validateApiKey (apiKey : jsstring) : prog validation :=
  answer <- axios_post (probeRequest apiKey) ;;
  Ret (classify answer).

(** This copy lets every error escape to its caller. *)
Definition structureJobData (content url apiKey : jsstring)
  : prog (exn + object) :=
  response <- axios_post (structuringRequest content apiKey) ;;
  match parseReply JSON_parse response with
  | inr structuredData =>
    t <- now ;;
    Ret (inr (withSource structuredData url (toISOString t)))
  | inl error => Ret (inl error)
  end.

Record previewResponse := PreviewResponse {
  rawData_of : rawData;
  url_of : jsstring;
  structuredData : option object;
  response_error : option jsstring;
  apiKeyValid : option bool
}.

Inductive reply :=
| Preview (body : previewResponse)
| Failed (status : N) (message : jsstring).

(** The message the [catch] around validation and structuring stores. *)
Definition structuringFailure (error : exn) : jsstring :=
  match error with
  | AxiosError status apiMessage message =>
    if is_status status 402
    then js "OpenRouter API: Payment required. Please check your account balance."
    else if is_status status 401
    then js "OpenRouter API: Invalid API key."
    else if is_status status 429
    then js "OpenRouter API: Rate limit exceeded. Please try again later."
    else js "OpenRouter API Error (" ++ status_text status ++ js "): "
         ++ apiErrorMessage apiMessage message
  | JsError _ message => js "Structuring error: " ++ message
  end.

Record request := Request {
  url : option jsstring;
  apiKey : option jsstring
}.

(** The answer of the outermost [catch]. *)
Definition failure (error : exn) : reply :=
  match error with
  | AxiosError _ _ message => Failed 500 (js "Failed to fetch URL: " ++ message)
  | JsError _ _ => Failed 500 (js "Failed to process URL")
  end.

Definition POST (body : request_body request) : prog reply :=
  match read_body body with
  | inl error => Ret (failure error)
  | inr rq =>
    match url rq with
    | None | Some [] => Ret (Failed 400 (js "URL is required"))
    | Some url =>
      rawData <- extractContentFromUrl url ;;
      match rawData with
      | inl error => Ret (failure error)
      | inr rawData =>
        match apiKey rq with
        | None | Some [] =>
          Ret (Preview (PreviewResponse rawData url None None None))
        | Some apiKey =>
          keyValidation <- validateApiKey apiKey ;;
          if valid keyValidation then
            structuredData <- structureJobData (content rawData) url apiKey ;;
            match structuredData with
            | inr structuredData =>
              Ret (Preview (PreviewResponse rawData url (Some structuredData)
                              None (Some true)))
            | inl error =>
              Ret (Preview (PreviewResponse rawData url None
                              (Some (structuringFailure error)) (Some true)))
            end
          else
            Ret (Preview (PreviewResponse rawData url None
                   (Some (or_else (error keyValidation)
                            (js "Invalid API key or insufficient credits")))
                   (Some false)))
        end
      end
    end
  end.

End Route.
End PreviewExtraction.

(** ** Route [extract-content] *)

Module ExtractContent.
Section Route.

Variable cheerio_load : json -> jsstring + document.

Record extractedData := ExtractedData {
  title : jsstring;
  h1 : jsstring;
  h2Elements : list jsstring;
  content : jsstring;
  url : jsstring
}.

Inductive reply :=
| Extracted (body : extractedData)
| Failed (status : N) (message : jsstring).

(** [if (mainContent.length > 3000) mainContent = ...]. *)
Definition limit (mainContent : jsstring) : jsstring :=
  if bool_decide (3000 < length mainContent)%nat
  then substring0 3000 mainContent ++ js "..."
  else mainContent.

Definition extract (loaded : document) (url : jsstring) : extractedData :=
  let doc := remove noise loaded in
  let h2Elements :=
    map (fun el => trim (textContent el)) (select (Tag "h2") doc) in
  {| title := trim (text doc (Tag "title"));
     h1 := trim (first_text doc (Tag "h1"));
     h2Elements := take 5 h2Elements;
     content := limit (cleanText (selectMainContent doc));
     url := url |}.

(** The body of the request is read for its [url] alone; whatever is
    thrown, the [catch] answers the same. *)
Definition POST (body : request_body (option jsstring)) : prog reply :=
  match read_body body with
  | inl _ => Ret (Failed 500 (js "Failed to extract content from URL"))
  | inr None | inr (Some []) => Ret (Failed 400 (js "URL is required"))
  | inr (Some url) =>
    response <- axios_get url ;;
    match response with
    | inl _ => Ret (Failed 500 (js "Failed to extract content from URL"))
    | inr data =>
      match thrown (cheerio_load data) with
      | inl _ => Ret (Failed 500 (js "Failed to extract content from URL"))
      | inr loaded => Ret (Extracted (extract loaded url))
      end
    end
  end.

End Route.
End ExtractContent.

(** ** Observing a run *)

(** The URLs fetched and the requests sent to the structuring service, in
    the order of the trace. *)
Definition fetched (tr : list event) : list jsstring :=
  omap (fun e => match e with Got url _ => Some url | _ => None end) tr.

Definition posted (tr : list event) : list chat_request :=
  omap (fun e => match e with Posted rq _ => Some rq | _ => None end) tr.

(** The events of one turn of the batch loop for [url], in their order: a
    failed fetch and the reading of the clock for the record; or a fetched
    page that cannot be loaded, with the same reading and nothing else; or a
    fetched page, the structuring call with the content of that page, the
    reading of the clock and, last, the wait of 1000 ms. *)
Definition turn_events (cheerio_load : json -> jsstring + document)
    (apiKey url : jsstring) (events : list event) : Prop :=
  (exists error t, events = [Got url (inl error); Clock t])
  \/ (exists data message t,
        cheerio_load data = inl message
        /\ events = [Got url (inr data); Clock t])
  \/ (exists data loaded answer t,
        cheerio_load data = inr loaded
        /\ events = [ Got url (inr data);
                      Posted (structuringRequest
                                (ExtractToExcel.contentOf loaded) apiKey) answer;
                      Clock t;
                      Slept 1000 ]).

Definition succeeded {A B} (r : A + B) : bool :=
  match r with
  | inl _ => false
  | inr _ => true
  end.

(** What the batch loop owes the record of one URL, [tr] being the trace of
    the run: it carries that URL, and the ISO rendering of a reading of the
    clock taken during the run. *)
Definition record_of (tr : list event) (url : jsstring) (job : object) : Prop :=
  get_prop (js "url") job = Some (JStr url)
  /\ exists t, In (Clock t) tr
       /\ get_prop (js "extractedAt") job = Some (JStr (toISOString t)).

(** An environment that plays a script: the answers to the fetches and to
    the chat calls in the order they are asked for, a network error once a
    list is used up, and a clock that advances by a second at every
    reading. *)
Record script := Script {
  gets : list (exn + json);
  posts : list (exn + chat_response);
  clock : N
}.

Definition network_error : exn := AxiosError None None (js "Network Error").

Definition scripted : world script :=
  {| on_get := fun s _ =>
       match gets s with
       | a :: r => (a, Script r (posts s) (clock s))
       | [] => (inl network_error, s)
       end;
     on_post := fun s _ =>
       match posts s with
       | a :: r => (a, Script (gets s) r (clock s))
       | [] => (inl network_error, s)
       end;
     on_now := fun s => (clock s, Script (gets s) (posts s) (clock s + 1000)) |}.

(** A parser that knows the texts of a table and rejects every other one. *)
Fixpoint table_parse (table : list (jsstring * object)) (text : jsstring)
  : jsstring + object :=
  match table with
  | [] => inl (js "Unexpected token in JSON")
  | (known, o) :: r =>
    if jsstring_eqb known text then inr o else table_parse r text
  end.

(** A page and a structured object to run the routes on. *)
Definition sample_page : document :=
  [ Element "html" []
      [ Element "head" [] [ Element "title" [] [Text (js " Engineer | ACME ")] ];
        Element "body" []
          [ Element "nav" [] [ Element "h2" [] [Text (js "Menu")] ];
            Element "main" []
              [ Element "h1" [] [Text (js "Engineer")];
                Element "h2" [] [Text (js "About the job")];
                Text (js " We are hiring.   Join us. ") ];
            Element "footer" [] [Text (js "ACME 2024")] ] ] ].

(** A loader that makes the sample page of every string and throws on
    every other value. *)
Definition sample_load (data : json) : jsstring + document :=
  match data with
  | JStr _ => inr sample_page
  | _ => inl (js "cheerio.load() expects a string")
  end.

(** A writer that refuses a text of more than 32767 characters in a cell
    and writes nothing but a file signature otherwise. *)
Definition long_text (c : cell) : bool :=
  match c with
  | Value (Some (JStr s)) => bool_decide (32767 < N.of_nat (length s))
  | _ => false
  end.

Definition sample_write (wb : workbook) : jsstring + Buffer :=
  if existsb (fun sheet => existsb (existsb (fun hc => long_text (snd hc)))
                             (snd sheet)) wb
  then inl (js "Text length must not exceed 32767 characters")
  else inr [80; 75; 3; 4].

Definition sampleStructured (jobTitle location employmentType : json) : object :=
  [ (js "jobTitle", jobTitle);
    (js "companyName", JStr (js "ACME"));
    (js "location", location);
    (js "salary", JObj [ (js "min", JNum (js "25")); (js "max", JNum (js "40"));
                         (js "type", JStr (js "月給")); (js "details", JNull) ]);
    (js "workingHours", JNull);
    (js "holidays", JNull);
    (js "benefits", JArr [JStr (js "社会保険")]);
    (js "requirements", JObj [ (js "experience", JNull);
                               (js "skills", JArr [JStr (js "Rocq")]);
                               (js "education", JNull) ]);
    (js "jobDescription", JStr (js "Proof engineering"));
    (js "applicationMethod", JNull);
    (js "employmentType", employmentType) ].

(** ** Observing the report *)

Definition nullish (v : option json) : bool :=
  match v with
  | None | Some JNull => true
  | Some _ => false
  end.

(** An array whose elements all convert to strings. *)
Definition joinable (v : option json) : bool :=
  match v with
  | Some (JArr items) => succeeded (join (js ", ") items)
  | _ => false
  end.

(** A grouping value that is skipped or converts to a property key. *)
Definition countable (v : option json) : bool :=
  match v with
  | Some x => if truthy v then succeeded (ToString x) else true
  | None => true
  end.

(** The records from which [createExcelFile] builds its rows without
    throwing: [salary] is neither missing nor [null], [benefits] is an
    array that can be joined and [requirements] an object whose [skills] is
    such an array. *)
Definition rows_fit (job : object) : bool :=
  negb (nullish (get_prop (js "salary") job))
  && joinable (get_prop (js "benefits") job)
  && match get_prop (js "requirements") job with
     | Some (JObj requirements) => joinable (get_prop (js "skills") requirements)
     | _ => false
     end.

(** The records whose three grouping values can be counted. *)
Definition groups_fit (job : object) : bool :=
  countable (get_prop (js "jobTitle") job)
  && countable (get_prop (js "location") job)
  && countable (get_prop (js "employmentType") job).

Definition fits_report (job : object) : bool := rows_fit job && groups_fit job.

(** The error of a conversion to a string that fails. *)
Definition cannot_convert : exn :=
  JsError "TypeError" (js "Cannot convert object to primitive value").

(** The number a row of the statistics sheet shows in its value column. *)
Definition shown_number (r : row) : N :=
  match r with
  | [_; (_, Number n)] => n
  | _ => 0
  end.

Definition numbers_total (rows : list row) : N :=
  foldr (fun r acc => shown_number r + acc) 0 rows.

Fixpoint count_if {A} (p : A -> bool) (l : list A) : N :=
  match l with
  | [] => 0
  | a :: r => (if p a then 1 else 0) + count_if p r
  end.

(** [job] has a truthy value in [field], and that value, as a property
    key, is exactly [key]. *)
Definition grouped_under (field key : jsstring) (job : object) : bool :=
  match get_prop field job with
  | Some v =>
    truthy (Some v)
    && match ToString v with
       | inr k => jsstring_eqb k key
       | inl _ => false
       end
  | None => false
  end.

Definition has_value (field : jsstring) (job : object) : bool :=
  truthy (get_prop field job).

(** The number behind a value of a counting object. *)
Definition count_value (c : count) : N :=
  match c with
  | Count n => n
  | Garbled _ => 0
  end.

Definition entries_total (l : list (jsstring * count)) : N :=
  foldr (fun e acc => count_value (snd e) + acc) 0 l.

Definition number_at (o : gmap jsstring count) (k : jsstring) : N :=
  match o !! k with
  | Some (Count n) => n
  | _ => 0
  end.

(** The values of a counting object are positive numbers. *)
Definition only_counts (o : gmap jsstring count) : Prop :=
  forall k c, o !! k = Some c -> exists n, c = Count n /\ 0 < n.

(** Stated from the specification, to compare with [jsonMatch]: the first
    balanced [{...}] region of a reply. [closing depth s] is the text up to
    the brace that closes an opening one, [s] being what follows that
    opening brace and [depth] the number of braces opened since and still
    open. *)
Fixpoint closing (depth : nat) (s : jsstring) : option jsstring :=
  match s with
  | [] => None
  | c :: r =>
    if c =? 123 then option_map (cons c) (closing (Datatypes.S depth) r)
    else if c =? 125 then
      match depth with
      | O => Some [c]
      | Datatypes.S d => option_map (cons c) (closing d r)
      end
    else option_map (cons c) (closing depth r)
  end.

Fixpoint spec_first_balanced_region (s : jsstring) : option jsstring :=
  match s with
  | [] => None
  | c :: r =>
    if c =? 123 then
      match closing 0 r with
      | Some p => Some (c :: p)
      | None => spec_first_balanced_region r
      end
    else spec_first_balanced_region r
  end.

(** ** Page [job-extractor] *)

Module JobExtractorPage.

(** [s.split('\n')]. *)
Fixpoint split_lines (s : jsstring) : list jsstring :=
  match s with
  | [] => [[]]
  | c :: r =>
    if c =? 10 then [] :: split_lines r
    else match split_lines r with
         | line :: lines => (c :: line) :: lines
         | [] => [[c]]
         end
  end.

(** [urls.split('\n').map(url => url.trim()).filter(url => url.length > 0)]. *)
Definition urlList (urls : jsstring) : list jsstring :=
  List.filter (fun url => bool_decide (0 < length url)%nat)
    (map trim (split_lines urls)).

(** [handleExtractAndDownload], up to its call of the batch route: the
    message it shows in place of calling, or the body it posts. *)
Definition handleExtractAndDownload (urls apiKey : jsstring)
  : jsstring + ExtractToExcel.request :=
  if negb (truthy_str (trim urls)) then inl (js "URLを入力してください")
  else if negb (truthy_str (trim apiKey))
  then inl (js "OpenRouter APIキーを入力してください")
  else
    let urlList := urlList urls in
    if bool_decide (length urlList = 0%nat)
    then inl (js "有効なURLを入力してください")
    else inr (ExtractToExcel.Request (Some urlList) (Some apiKey)).

(** [handlePreview], up to its call of the preview route: only the first
    URL is sent, and the credential trimmed, or none when that is empty. *)
Definition handlePreview (urls apiKey : jsstring)
  : jsstring + PreviewExtraction.request :=
  if negb (truthy_str (trim urls)) then inl (js "URLを入力してください")
  else
    let urlList := urlList urls in
    if bool_decide (length urlList = 0%nat)
    then inl (js "有効なURLを入力してください")
    else
      let previewUrl := head urlList in
      inr (PreviewExtraction.Request previewUrl
             (if truthy_str (trim apiKey) then Some (trim apiKey) else None)).

(** The [disabled] attributes of the two buttons: a handler only runs when
    its button is not disabled. *)
Definition previewDisabled (loading : bool) (urls : jsstring) : bool :=
  loading || negb (truthy_str (trim urls)).

Definition downloadDisabled (loading : bool) (urls apiKey : jsstring) : bool :=
  loading || negb (truthy_str (trim urls)) || negb (truthy_str (trim apiKey)).

End JobExtractorPage.

(** ** More observations *)

(** The fetches of a trace with their answers, the readings of the clock
    and the waits, each in the order of the trace. *)
Definition got_answers (tr : list event) : list (jsstring * (exn + json)) :=
  omap (fun e => match e with Got url a => Some (url, a) | _ => None end) tr.

Definition clock_readings (tr : list event) : list N :=
  omap (fun e => match e with Clock t => Some t | _ => None end) tr.

Definition waits (tr : list event) : list N :=
  omap (fun e => match e with Slept ms => Some ms | _ => None end) tr.

(** A text in which every white-space character is a single space that
    does not follow another one, [after_space] telling whether the text
    comes after a space. *)
Fixpoint tidy (after_space : bool) (s : jsstring) : bool :=
  match s with
  | [] => true
  | c :: r =>
    if is_space c then (c =? 32) && negb after_space && tidy true r
    else tidy false r
  end.

(** The headers of a row. *)
Definition headers (r : row) : list jsstring := map fst r.

(** * Properties *)

Arguments cleanText : simpl never.
Arguments selectMainContent : simpl never.
Arguments structuringRequest : simpl never.
Arguments withSource : simpl never.
Arguments fallbackJob : simpl never.

(** ** Runs *)

Lemma run_bind {S A B} (w : world S) (p : prog A) (f : A -> prog B) (s : S) :
  run w (bind p f) s =
  let o := run w p s in
  let o' := run w (f (value o)) (final o) in
  Outcome (value o') (trace o ++ trace o') (final o').
Proof.
  revert s. induction p as [a|url k IH|rq k IH|ms k IH|k IH]; intros s; simpl.
  - by destruct (run w (f a) s).
  - destruct (on_get w s url) as [r s']. rewrite IH. done.
  - destruct (on_post w s rq) as [r s']. rewrite IH. done.
  - rewrite IH. done.
  - destruct (on_now w s) as [t s']. rewrite IH. done.
Qed.

(** ** Objects *)

Lemma jsstring_eqb_eq (a b : jsstring) : jsstring_eqb a b = true <-> a = b.
Proof. unfold jsstring_eqb. by rewrite bool_decide_eq_true. Qed.

Lemma get_set_prop_eq (k : jsstring) (v : json) (o : object) :
  get_prop k (set_prop k v o) = Some v.
Proof.
  induction o as [|[k' v'] o IH]; simpl.
  - unfold jsstring_eqb. by rewrite bool_decide_eq_true_2.
  - destruct (jsstring_eqb k' k) eqn:E; simpl.
    + unfold jsstring_eqb. by rewrite bool_decide_eq_true_2.
    + by rewrite E.
Qed.

Lemma get_set_prop_ne (k k' : jsstring) (v : json) (o : object) :
  k <> k' -> get_prop k' (set_prop k v o) = get_prop k' o.
Proof.
  intros Hne. induction o as [|[k0 v0] o IH]; simpl.
  - unfold jsstring_eqb. by rewrite bool_decide_eq_false_2.
  - destruct (jsstring_eqb k0 k) eqn:E; simpl.
    + apply jsstring_eqb_eq in E as ->.
      unfold jsstring_eqb. by rewrite !bool_decide_eq_false_2.
    + by rewrite IH.
Qed.

Lemma withSource_url (o : object) (url t : jsstring) :
  get_prop (js "url") (withSource o url t) = Some (JStr url).
Proof.
  unfold withSource. rewrite get_set_prop_ne by (by vm_compute).
  apply get_set_prop_eq.
Qed.

Lemma withSource_extractedAt (o : object) (url t : jsstring) :
  get_prop (js "extractedAt") (withSource o url t) = Some (JStr t).
Proof. unfold withSource. apply get_set_prop_eq. Qed.

Lemma withSource_other (o : object) (url t k : jsstring) :
  k <> js "url" -> k <> js "extractedAt" ->
  get_prop k (withSource o url t) = get_prop k o.
Proof.
  intros H1 H2. unfold withSource.
  rewrite !get_set_prop_ne; [done|congruence|congruence].
Qed.

Lemma toISOString_nonempty (t : N) : toISOString t <> [].
Proof.
  unfold toISOString. destruct (civil_from_days _) as [[y m] d].
  intros H. apply (f_equal length) in H. rewrite !length_app in H.
  change (length (js "Z")) with 1%nat in H. simpl in H. lia.
Qed.

Opaque js jsq toISOString.

(** ** The batch loop *)

(** Instantiates the induction hypothesis of a proof about the loop at the
    records and the state with which the loop goes on in the goal. *)
Tactic Notation "loop_ih" hyp(IH) "as" simple_intropattern(pat)
    "with" ident(job) :=
  match goal with
  | |- context [run _ (ExtractToExcel.processUrls _ _ _ _ (?acc ++ [?j])) ?s] =>
    pose (job := j); destruct (IH (acc ++ [j]) s) as pat
  end.

Section BatchLoop.

Context (cheerio_load : json -> jsstring + document).
Context (JSON_parse : jsstring -> jsstring + object).
Context {S : Type} (w : world S).

Local Abbreviation processUrls :=
  (ExtractToExcel.processUrls cheerio_load JSON_parse).

Lemma record_of_later e tr url job :
  record_of tr url job -> record_of (e :: tr) url job.
Proof.
  intros [Hu (t & Ht & He)]. split; [done|]. exists t. split; [|done].
  by right.
Qed.

Lemma records_later e tr urls jobs :
  Forall2 (record_of tr) urls jobs -> Forall2 (record_of (e :: tr)) urls jobs.
Proof.
  intros H. eapply Forall2_impl; [exact H|].
  intros url job. apply record_of_later.
Qed.

Lemma fallbackJob_record d url t tr :
  In (Clock t) tr -> record_of tr url (fallbackJob d url (toISOString t)).
Proof. intros Ht. split; [done|]. by exists t. Qed.

Lemma withSource_record o url t tr :
  In (Clock t) tr -> record_of tr url (withSource o url (toISOString t)).
Proof.
  intros Ht. split; [apply withSource_url|]. exists t. split; [done|].
  apply withSource_extractedAt.
Qed.

(** The loop only appends to [jobsData]: one record per URL, carrying
    that URL and a reading of the clock, and it fetches each URL once. *)
Lemma processUrls_records urls apiKey jobsData s :
  let o := run w (processUrls urls apiKey jobsData) s in
  exists news,
    value o = jobsData ++ news
    /\ Forall2 (record_of (trace o)) urls news
    /\ fetched (trace o) = urls.
Proof.
  revert jobsData s. induction urls as [|url rest IH]; intros jobsData s.
  - exists []. simpl. rewrite app_nil_r. repeat split; constructor.
  - simpl.
    destruct (on_get w s url) as [[error|data] s1]; simpl.
    + destruct (on_now w s1) as [t s2]; simpl.
      loop_ih IH as (news & Hv & Hr & Hf) with job;
        exists (job :: news); subst job.
      rewrite Hv, <- app_assoc. split; [done|]. split; [|by rewrite Hf].
      constructor.
      * apply fallbackJob_record. right. by left.
      * by do 2 apply records_later.
    + destruct (cheerio_load data) as [message|loaded]; simpl.
      { destruct (on_now w s1) as [t s2]; simpl.
        loop_ih IH as (news & Hv & Hr & Hf) with job;
          exists (job :: news); subst job.
        rewrite Hv, <- app_assoc. split; [done|]. split; [|by rewrite Hf].
        constructor.
        - apply fallbackJob_record. right. by left.
        - by do 2 apply records_later. }
      destruct (on_post w s1 _) as [answer s2]; simpl.
      destruct (parseReply JSON_parse answer) as [error|structuredData];
        simpl; destruct (on_now w s2) as [t s3]; simpl.
      * loop_ih IH as (news & Hv & Hr & Hf) with job;
          exists (job :: news); subst job.
        rewrite Hv, <- app_assoc. split; [done|]. split; [|by rewrite Hf].
        constructor.
        -- apply fallbackJob_record. do 2 right. by left.
        -- by do 4 apply records_later.
      * loop_ih IH as (news & Hv & Hr & Hf) with job;
          exists (job :: news); subst job.
        rewrite Hv, <- app_assoc. split; [done|]. split; [|by rewrite Hf].
        constructor.
        -- apply withSource_record. do 2 right. by left.
        -- by do 4 apply records_later.
Qed.

(** The trace of the loop is made of its turns, one per URL. *)
Lemma processUrls_turns urls apiKey jobsData s :
  exists turns,
    trace (run w (processUrls urls apiKey jobsData) s) = concat turns
    /\ Forall2 (turn_events cheerio_load apiKey) urls turns.
Proof.
  revert jobsData s. induction urls as [|url rest IH]; intros jobsData s.
  - exists []. split; [done|constructor].
  - simpl.
    destruct (on_get w s url) as [[error|data] s1]; simpl.
    + destruct (on_now w s1) as [t s2]; simpl.
      loop_ih IH as (turns & Ht & HF) with job; clear job.
      exists ([Got url (inl error); Clock t] :: turns).
      split; [by rewrite Ht|]. constructor; [|done].
      left. by exists error, t.
    + destruct (cheerio_load data) as [message|loaded] eqn:Eload; simpl.
      * destruct (on_now w s1) as [t s2]; simpl.
        loop_ih IH as (turns & Ht & HF) with job; clear job.
        exists ([Got url (inr data); Clock t] :: turns).
        split; [by rewrite Ht|]. constructor; [|done].
        right. left. by exists data, message, t.
      * destruct (on_post w s1 _) as [answer s2]; simpl.
        destruct (parseReply JSON_parse answer) as [error|structuredData];
          simpl; destruct (on_now w s2) as [t s3]; simpl;
          loop_ih IH as (turns & Ht & HF) with job; clear job;
          exists ([ Got url (inr data);
                    Posted (structuringRequest
                              (ExtractToExcel.contentOf loaded) apiKey) answer;
                    Clock t; Slept 1000 ] :: turns);
          (split; [by rewrite Ht|]); (constructor; [|done]);
          right; right; by exists data, loaded, answer, t.
Qed.

End BatchLoop.





(** ** The reply of the structuring service *)

Lemma after_first_open_None (s : jsstring) :
  after_first_open s = None <-> 123 ∉ s.
Proof.
  induction s as [|c r IH]; simpl.
  - split; [intros _; apply not_elem_of_nil|done].
  - rewrite not_elem_of_cons. destruct (N.eqb_spec c 123) as [->|Hc].
    + split; [done|]. by intros [? _].
    + rewrite IH. split; [by intros ?; split; [congruence|]|by intros [_ ?]].
Qed.

Lemma after_first_open_Some (s r : jsstring) :
  after_first_open s = Some r <-> exists pre, s = pre ++ 123 :: r /\ (123 ∉ pre).
Proof.
  revert r. induction s as [|c s IH]; intros r; simpl.
  - split; [done|]. intros (pre & H & _). by destruct pre.
  - destruct (N.eqb_spec c 123) as [->|Hc].
    + split.
      * intros [= <-]. exists []. split; [done|apply not_elem_of_nil].
      * intros ([|c pre] & H & Hpre); simplify_eq/=; [done|].
        exfalso. apply Hpre. by left.
    + rewrite IH. split.
      * intros (pre & -> & Hpre). exists (c :: pre). split; [done|].
        rewrite not_elem_of_cons. split; [congruence|done].
      * intros ([|c' pre] & H & Hpre); simplify_eq/=.
        exists pre. split; [done|]. by apply not_elem_of_cons in Hpre as [_ ?].
Qed.

Lemma upto_last_close_None (s : jsstring) :
  upto_last_close s = None <-> 125 ∉ s.
Proof.
  induction s as [|c r IH]; simpl.
  - split; [intros _; apply not_elem_of_nil|done].
  - rewrite not_elem_of_cons. destruct (upto_last_close r) as [p|].
    + split; [done|]. intros [_ Hr]. by apply IH in Hr.
    + destruct (N.eqb_spec c 125) as [->|Hc].
      * split; [done|]. by intros [? _].
      * split; [|done]. intros _. split; [congruence|by apply IH].
Qed.

Lemma upto_last_close_Some (s p : jsstring) :
  upto_last_close s = Some p <->
  exists mid post, s = p ++ post /\ p = mid ++ [125] /\ (125 ∉ post).
Proof.
  split.
  - revert p. induction s as [|c r IH]; intros p; simpl; [done|].
    destruct (upto_last_close r) as [p'|] eqn:E.
    + intros [= <-]. destruct (IH p' eq_refl) as (mid & post & -> & -> & Hpost).
      exists (c :: mid), post. by repeat split.
    + destruct (N.eqb_spec c 125) as [->|Hc]; [|done].
      intros [= <-]. exists [], r. repeat split. by apply upto_last_close_None.
  - intros (mid & post & -> & -> & Hpost).
    induction mid as [|c mid IH]; simpl.
    + apply upto_last_close_None in Hpost as ->. done.
    + by rewrite IH.
Qed.

(** The text extracted from a reply is its span from the first opening
    brace to the last closing brace. *)
Lemma jsonMatch_Some (reply m : jsstring) :
  jsonMatch reply = Some m <->
  exists pre mid post,
    reply = pre ++ m ++ post /\ m = 123 :: mid ++ [125]
    /\ (123 ∉ pre) /\ (125 ∉ post).
Proof.
  unfold jsonMatch. split.
  - destruct (after_first_open reply) as [r|] eqn:E1; [|done].
    destruct (upto_last_close r) as [p|] eqn:E2; [|done].
    intros [= <-].
    apply after_first_open_Some in E1 as (pre & -> & Hpre).
    apply upto_last_close_Some in E2 as (mid & post & -> & -> & Hpost).
    exists pre, mid, post. by repeat split.
  - intros (pre & mid & post & -> & -> & Hpre & Hpost).
    assert (after_first_open (pre ++ (123 :: mid ++ [125]) ++ post)
            = Some ((mid ++ [125]) ++ post)) as ->.
    { apply after_first_open_Some. by exists pre. }
    assert (upto_last_close ((mid ++ [125]) ++ post) = Some (mid ++ [125])) as ->.
    { apply upto_last_close_Some. by exists mid, post. }
    done.
Qed.

(** Nothing is extracted exactly from the replies in which no opening brace
    comes before a closing one. *)
Lemma jsonMatch_None (reply : jsstring) :
  jsonMatch reply = None <->
  ~ exists pre mid post, reply = pre ++ 123 :: mid ++ 125 :: post.
Proof.
  split.
  - intros Hnone (pre & mid & post & ->).
    unfold jsonMatch in Hnone.
    destruct (after_first_open _) as [r|] eqn:E1.
    + destruct (upto_last_close r) as [p|] eqn:E2; [done|].
      apply upto_last_close_None in E2.
      apply after_first_open_Some in E1 as (pre' & E & Hpre').
      apply E2. clear E2 Hnone.
      revert pre E. induction pre' as [|c pre' IH]; intros pre E.
      * destruct pre as [|c pre]; simplify_eq/=.
        -- rewrite elem_of_app. right. by left.
        -- rewrite elem_of_app. right. right.
           rewrite elem_of_app. right. by left.
      * destruct pre as [|c' pre]; simplify_eq/=.
        -- exfalso. apply Hpre'. by left.
        -- apply (IH ltac:(by apply not_elem_of_cons in Hpre' as [_ ?]) pre).
           done.
    + apply after_first_open_None in E1. apply E1.
      rewrite elem_of_app. right. by left.
  - intros Hno. destruct (jsonMatch reply) as [m|] eqn:E; [|done].
    exfalso. apply Hno.
    apply jsonMatch_Some in E as (pre & mid & post & -> & -> & _ & _).
    exists pre, mid, post. simpl. by rewrite <- app_assoc.
Qed.

(** C2 (amended). For every reply text of the structuring service, the
    structuring client extracts the span of the reply from its first
    opening brace to its last closing brace; it fails with the no-JSON-found
    error exactly when there is no such span (no opening brace comes before
    a closing one), fails with a [SyntaxError] exactly when that span does
    not parse as JSON, and on success produces a record whose fields are
    those of the parsed object, [url] and [extractedAt] apart, which the
    client sets; so a reply made of prose without braces around an embedded
    object whose [jobTitle] is a given title yields that [jobTitle]. *)
Theorem structuring_reply_handling
    (JSON_parse : jsstring -> jsstring + object)
    {S : Type} (w : world S) (s s1 : S)
    (content url apiKey reply : jsstring) (status : N) :
  on_post w s (structuringRequest content apiKey)
  = (inr (ChatResponse status (inr reply)), s1) ->
  let r := value (run w (PreviewExtraction.structureJobData JSON_parse
                           content url apiKey) s) in
  (forall m, jsonMatch reply = Some m <->
     exists pre mid post,
       reply = pre ++ m ++ post /\ m = 123 :: mid ++ [125]
       /\ (123 ∉ pre) /\ (125 ∉ post))
  /\ (jsonMatch reply = None <->
      ~ exists pre mid post, reply = pre ++ 123 :: mid ++ 125 :: post)
  /\ (r = inl (JsError "Error" (js "No valid JSON found in AI response")) <->
      jsonMatch reply = None)
  /\ (forall message,
        r = inl (JsError "SyntaxError" message) <->
        exists m, jsonMatch reply = Some m /\ JSON_parse m = inl message)
  /\ (forall job,
        r = inr job ->
        exists m structuredData,
          jsonMatch reply = Some m /\ JSON_parse m = inr structuredData
          /\ get_prop (js "url") job = Some (JStr url)
          /\ (exists t, In (Clock t) (trace (run w
                 (PreviewExtraction.structureJobData JSON_parse
                    content url apiKey) s))
               /\ get_prop (js "extractedAt") job = Some (JStr (toISOString t)))
          /\ forall k, k <> js "url" -> k <> js "extractedAt" ->
               get_prop k job = get_prop k structuredData)
  /\ (forall pre mid post structuredData title,
        reply = pre ++ (123 :: mid ++ [125]) ++ post ->
        123 ∉ pre -> 125 ∉ post ->
        JSON_parse (123 :: mid ++ [125]) = inr structuredData ->
        get_prop (js "jobTitle") structuredData = Some (JStr title) ->
        exists job, r = inr job
                    /\ get_prop (js "jobTitle") job = Some (JStr title)).
Proof.
  intros Hpost r.
  split; [intros m; apply jsonMatch_Some|].
  split; [apply jsonMatch_None|].
  assert (Hr : r = match jsonMatch reply with
                   | None =>
                     inl (JsError "Error" (js "No valid JSON found in AI response"))
                   | Some m =>
                     match JSON_parse m with
                     | inl message => inl (JsError "SyntaxError" message)
                     | inr structuredData =>
                       inr (withSource structuredData url
                              (toISOString (fst (on_now w s1))))
                     end
                   end).
  { subst r. unfold PreviewExtraction.structureJobData. simpl.
    rewrite Hpost. simpl.
    destruct (jsonMatch reply) as [m|]; simpl; [|done].
    destruct (JSON_parse m) as [message|structuredData]; simpl; [done|].
    by destruct (on_now w s1) as [t s2]. }
  assert (Htr : forall m structuredData,
             jsonMatch reply = Some m -> JSON_parse m = inr structuredData ->
             In (Clock (fst (on_now w s1)))
               (trace (run w (PreviewExtraction.structureJobData JSON_parse
                                content url apiKey) s))).
  { intros m structuredData Hm Hp.
    unfold PreviewExtraction.structureJobData. simpl.
    rewrite Hpost. simpl. rewrite Hm. simpl. rewrite Hp. simpl.
    destruct (on_now w s1) as [t s2]. simpl. right. by left. }
  clearbody r. subst r.
  split; [|split; [|split]].
  - destruct (jsonMatch reply) as [m|]; [|done].
    split; [|done]. by destruct (JSON_parse m).
  - intros message. destruct (jsonMatch reply) as [m|].
    + destruct (JSON_parse m) as [message'|structuredData] eqn:E.
      * split; [intros [= <-]; by exists m|].
        intros (m' & [= <-] & E'). congruence.
      * split; [done|]. intros (m' & [= <-] & E'). congruence.
    + split; [done|]. by intros (m' & ? & _).
  - intros job. destruct (jsonMatch reply) as [m|]; [|done].
    destruct (JSON_parse m) as [message|structuredData] eqn:E; [done|].
    intros [= <-]. exists m, structuredData.
    split; [done|]. split; [done|]. split; [apply withSource_url|].
    split.
    { exists (fst (on_now w s1)).
      split; [by eapply Htr|apply withSource_extractedAt]. }
    intros k H1 H2. by apply withSource_other.
  - intros pre mid post structuredData title -> Hpre Hclose Hparse Htitle.
    assert (jsonMatch (pre ++ (123 :: mid ++ [125]) ++ post)
            = Some (123 :: mid ++ [125])) as ->.
    { apply jsonMatch_Some. by exists pre, mid, post. }
    rewrite Hparse. eexists. split; [done|].
    rewrite withSource_other; [done|by vm_compute|by vm_compute].
Qed.

(** The scenario of C2 on a scripted service: prose around an object. *)
Lemma structuring_reply_handling_engineer :
  let reply := jsq "Here is the result: {'jobTitle':'Engineer','companyName':null} Hope this helps!" in
  let region := jsq "{'jobTitle':'Engineer','companyName':null}" in
  let parse := table_parse
                 [(region, [(js "jobTitle", JStr (js "Engineer"));
                            (js "companyName", JNull)])] in
  let start := Script [] [inr (ChatResponse 200 (inr reply))] 1700000000000 in
  exists job,
    value (run scripted
             (PreviewExtraction.structureJobData parse (js "Engineer wanted")
                (js "https://a.example/job") (js "sk-test")) start)
    = inr job
    /\ get_prop (js "jobTitle") job = Some (JStr (js "Engineer")).
Proof.
  intros reply region parse start.
  refine (proj2 (proj2 (proj2 (proj2 (proj2
            (structuring_reply_handling parse scripted start
               (Script [] [] 1700000000000)
               (js "Engineer wanted") (js "https://a.example/job")
               (js "sk-test") reply 200 _)))))
            (jsq "Here is the result: ")
            (jsq "'jobTitle':'Engineer','companyName':null")
            (jsq " Hope this helps!") _ (js "Engineer") _ _ _ _ _);
    try (vm_compute; reflexivity).
  - vm_compute. intros H. repeat (apply elem_of_cons in H as [H|H]; [done|]).
    by apply elem_of_nil in H.
  - vm_compute. intros H. repeat (apply elem_of_cons in H as [H|H]; [done|]).
    by apply elem_of_nil in H.
Defined.

(** C2, as stated, fails: the extracted text is not the first balanced
    region of the reply when a later closing brace follows it, and the
    client then fails on a reply whose first balanced region parses. *)
Lemma greedy_match_overshoots_first_balanced_region :
  let reply := jsq "{'jobTitle':'Engineer'} I left the other fields out {see the page}." in
  let region := jsq "{'jobTitle':'Engineer'}" in
  let parse := table_parse [(region, [(js "jobTitle", JStr (js "Engineer"))])] in
  let start := Script [] [inr (ChatResponse 200 (inr reply))] 1700000000000 in
  spec_first_balanced_region reply = Some region
  /\ jsonMatch reply
     = Some (jsq "{'jobTitle':'Engineer'} I left the other fields out {see the page}")
  /\ jsonMatch reply <> spec_first_balanced_region reply
  /\ parse region = inr [(js "jobTitle", JStr (js "Engineer"))]
  /\ value (run scripted
              (PreviewExtraction.structureJobData parse (js "Engineer wanted")
                 (js "https://a.example/job") (js "sk-test")) start)
     = inl (JsError "SyntaxError" (js "Unexpected token in JSON")).
Proof.
  intros reply region parse start.
  repeat split; try (vm_compute; reflexivity).
  vm_compute. discriminate.
Qed.

(** ** The report *)

Arguments join : simpl never.

Lemma map_throwing_length {A B} (f : A -> exn + B) (l : list A) (bs : list B) :
  map_throwing f l = inr bs -> length bs = length l.
Proof.
  revert bs. induction l as [|a l IH]; intros bs; simpl.
  - by intros [= <-].
  - destruct (f a) as [e|b]; simpl; [done|].
    destruct (map_throwing f l) as [e|bs']; simpl; [done|].
    intros [= <-]. simpl. by rewrite (IH bs').
Qed.

Lemma detailRows_length (index : nat) (jobsData : list object) (rows : list row) :
  ExtractToExcel.detailRows index jobsData = inr rows ->
  length rows = length jobsData.
Proof.
  revert index rows. induction jobsData as [|job rest IH]; intros index rows; simpl.
  - by intros [= <-].
  - destruct (ExtractToExcel.detailRow index job) as [e|r]; simpl; [done|].
    destruct (ExtractToExcel.detailRows (Datatypes.S index) rest) as [e|rs] eqn:E;
      simpl; [done|].
    intros [= <-]. simpl. by rewrite (IH _ _ E).
Qed.

Lemma json_induction (P : json -> Prop) :
  P JNull -> (forall b, P (JBool b)) -> (forall t, P (JNum t)) ->
  (forall s, P (JStr s)) ->
  (forall items, Forall P items -> P (JArr items)) ->
  (forall props, P (JObj props)) ->
  forall v, P v.
Proof.
  intros HN HB HM HS HA HO.
  refine (fix IH (v : json) : P v :=
            match v with
            | JNull => HN
            | JBool b => HB b
            | JNum t => HM t
            | JStr s => HS s
            | JArr items =>
              HA items
                ((fix go (l : list json) : Forall P l :=
                    match l with
                    | [] => ltac:(constructor)
                    | x :: l' =>
                      ltac:(constructor; [exact (IH x)|exact (go l')])
                    end) items)
            | JObj props => HO props
            end).
Qed.

(** A conversion to a string throws one error only. *)
Lemma ToString_throws (v : json) (e : exn) :
  ToString v = inl e -> e = cannot_convert.
Proof.
  revert e. induction v as [|b|t|s|items IH|props] using json_induction;
    intros e; simpl; try done.
  - by destruct b.
  - destruct (map_throwing _ items) as [e'|texts] eqn:E; simpl; [|done].
    intros [= <-]. revert e' E.
    induction IH as [|x items Hx _ IHitems]; intros e'; simpl; [done|].
    destruct (match x with JNull => inr [] | _ => ToString x end)
      as [e1|t1] eqn:E1; simpl.
    + intros [= <-]. destruct x; try done; by apply Hx in E1.
    + destruct (map_throwing _ items) as [e2|ts] eqn:E2; simpl; [|done].
      intros [= <-]. by apply IHitems.
  - destruct (get_prop _ props); [by intros [= <-]|done].
Qed.

Lemma join_throws (sep : jsstring) (items : list json) (e : exn) :
  join sep items = inl e -> e = cannot_convert.
Proof.
  unfold join.
  destruct (map_throwing _ items) as [e'|texts] eqn:E; simpl; [|done].
  intros [= <-]. revert e' E.
  induction items as [|x items IH]; intros e'; simpl; [done|].
  destruct (match x with JNull => inr [] | _ => ToString x end)
    as [e1|t1] eqn:E1; simpl.
  - intros [= <-]. destruct x; try done; by apply ToString_throws in E1.
  - destruct (map_throwing _ items) as [e2|ts] eqn:E2; simpl; [|done].
    intros [= <-]. by apply IH.
Qed.

Lemma summaryRow_succeeds (job : object) :
  succeeded (ExtractToExcel.summaryRow job)
  = negb (nullish (get_prop (js "salary") job)).
Proof.
  unfold ExtractToExcel.summaryRow.
  by destruct (get_prop (js "salary") job) as [[| | | | |]|].
Qed.

Lemma call_join_succeeds (path : string) (v : option json) :
  succeeded (call_join path v) = joinable v.
Proof. by destruct v as [[| | | | |]|]. Qed.

Lemma detailRow_succeeds (index : nat) (job : object) :
  succeeded (ExtractToExcel.detailRow index job) = rows_fit job.
Proof.
  unfold ExtractToExcel.detailRow, rows_fit.
  rewrite <- (call_join_succeeds "job.benefits").
  destruct (get_prop (js "salary") job) as [[| | | | |]|]; simpl; try done;
    (destruct (call_join "job.benefits" (get_prop (js "benefits") job))
       as [e|benefits]; simpl; [done|]);
    (destruct (get_prop (js "requirements") job) as [[| | | | |requirements]|];
     simpl; try done);
    rewrite <- (call_join_succeeds "job.requirements.skills");
    by destruct (call_join "job.requirements.skills"
                   (get_prop (js "skills") requirements)).
Qed.

Lemma rows_fit_salary (job : object) :
  rows_fit job = true -> nullish (get_prop (js "salary") job) = false.
Proof.
  unfold rows_fit. intros H.
  apply andb_prop in H as [H _]. apply andb_prop in H as [H _].
  by apply negb_true_iff.
Qed.

Lemma tally_succeeds (v : option json) (o : gmap jsstring count) :
  succeeded (tally v o) = countable v.
Proof.
  unfold tally, countable. destruct v as [x|]; [|done].
  destruct (truthy (Some x)); [|done]. by destruct (ToString x).
Qed.

Lemma countJob_succeeds (stats : statistics) (job : object) :
  succeeded (ExtractToExcel.countJob stats job) = groups_fit job.
Proof.
  unfold ExtractToExcel.countJob, groups_fit.
  rewrite <- (tally_succeeds _ (byJobTitle stats)),
          <- (tally_succeeds _ (byLocation stats)),
          <- (tally_succeeds _ (byEmploymentType stats)).
  destruct (tally (get_prop (js "jobTitle") job) _); simpl; [done|].
  destruct (tally (get_prop (js "location") job) _); simpl; [done|].
  by destruct (tally (get_prop (js "employmentType") job) _).
Qed.

Lemma computeStats_succeeds (jobsData : list object) :
  succeeded (ExtractToExcel.computeStats jobsData) = forallb groups_fit jobsData.
Proof.
  unfold ExtractToExcel.computeStats. generalize (N.of_nat (length jobsData)).
  intros n.
  generalize {| total := n; byJobTitle := ∅; byLocation := ∅;
                byEmploymentType := ∅ |}.
  induction jobsData as [|job rest IH]; intros stats; simpl; [done|].
  rewrite <- (countJob_succeeds stats job).
  destruct (ExtractToExcel.countJob stats job) as [e|stats']; simpl; [done|].
  apply IH.
Qed.

Lemma detailRows_succeeds (index : nat) (jobsData : list object) :
  succeeded (ExtractToExcel.detailRows index jobsData)
  = forallb rows_fit jobsData.
Proof.
  revert index. induction jobsData as [|job rest IH]; intros index; simpl;
    [done|].
  rewrite <- (detailRow_succeeds index job).
  destruct (ExtractToExcel.detailRow index job) as [e|r]; simpl; [done|].
  rewrite <- (IH (Datatypes.S index)).
  by destruct (ExtractToExcel.detailRows (Datatypes.S index) rest).
Qed.

Lemma summaryRows_succeed (jobsData : list object) :
  forallb rows_fit jobsData = true ->
  succeeded (map_throwing ExtractToExcel.summaryRow jobsData) = true.
Proof.
  induction jobsData as [|job rest IH]; simpl; [done|].
  intros Hall. apply andb_prop in Hall as [Hjob Hrest].
  pose proof (summaryRow_succeeds job) as Hs.
  rewrite (rows_fit_salary _ Hjob) in Hs.
  destruct (ExtractToExcel.summaryRow job) as [e|r]; simpl; [done|].
  specialize (IH Hrest).
  by destruct (map_throwing ExtractToExcel.summaryRow rest).
Qed.

Lemma forallb_fits_report (jobsData : list object) :
  forallb fits_report jobsData
  = forallb rows_fit jobsData && forallb groups_fit jobsData.
Proof.
  induction jobsData as [|job rest IH]; simpl; [done|].
  rewrite IH. unfold fits_report.
  destruct (rows_fit job), (groups_fit job), (forallb rows_fit rest); done.
Qed.

(** The workbook is built exactly from the lists of records that all
    fit. *)
Lemma buildWorkbook_succeeds (jobsData : list object) :
  succeeded (ExtractToExcel.buildWorkbook jobsData)
  = forallb fits_report jobsData.
Proof.
  rewrite forallb_fits_report. unfold ExtractToExcel.buildWorkbook.
  rewrite <- (detailRows_succeeds 0), <- computeStats_succeeds.
  pose proof (summaryRows_succeed jobsData) as Hs.
  rewrite <- (detailRows_succeeds 0) in Hs.
  destruct (map_throwing ExtractToExcel.summaryRow jobsData) as [e|rows]; simpl.
  - destruct (ExtractToExcel.detailRows 0 jobsData); simpl; [done|].
    by specialize (Hs eq_refl).
  - destruct (ExtractToExcel.detailRows 0 jobsData); simpl; [done|].
    by destruct (ExtractToExcel.computeStats jobsData).
Qed.

Lemma fallbackJob_fits (d url t : jsstring) :
  fits_report (fallbackJob d url t) = true.
Proof. by vm_compute. Qed.

Lemma withSource_fits (o : object) (url t : jsstring) :
  fits_report (withSource o url t) = fits_report o.
Proof.
  unfold fits_report, rows_fit, groups_fit.
  by rewrite !withSource_other by (by vm_compute).
Qed.

Lemma summaryRow_throws (job : object) (e : exn) :
  ExtractToExcel.summaryRow job = inl e -> exists name message, e = JsError name message.
Proof.
  unfold ExtractToExcel.summaryRow.
  destruct (get_prop (js "salary") job) as [[| | | | |]|]; simpl;
    intros [= <-]; eauto.
Qed.

Lemma call_join_throws (path : string) (v : option json) (e : exn) :
  call_join path v = inl e -> exists name message, e = JsError name message.
Proof.
  destruct v as [[| | | |items|]|]; simpl; try (intros [= <-]; by eauto).
  intros H. apply join_throws in H as ->. unfold cannot_convert. eauto.
Qed.

Lemma detailRow_throws (index : nat) (job : object) (e : exn) :
  ExtractToExcel.detailRow index job = inl e ->
  exists name message, e = JsError name message.
Proof.
  unfold ExtractToExcel.detailRow.
  destruct (get_prop (js "salary") job) as [[| | | | |]|]; simpl;
    try (intros [= <-]; by eauto);
    (destruct (call_join "job.benefits" (get_prop (js "benefits") job))
       as [e1|benefits] eqn:E1; simpl;
     [intros [= <-]; by eapply call_join_throws|]);
    (destruct (get_prop (js "requirements") job) as [[| | | | |requirements]|];
     simpl; try (intros [= <-]; by eauto));
    (destruct (call_join "job.requirements.skills"
                 (get_prop (js "skills") requirements)) as [e2|skills] eqn:E2;
     simpl; [intros [= <-]; by eapply call_join_throws|done]).
Qed.

Lemma computeStats_throws (jobsData : list object) (e : exn) :
  ExtractToExcel.computeStats jobsData = inl e -> e = cannot_convert.
Proof.
  unfold ExtractToExcel.computeStats. generalize (N.of_nat (length jobsData)).
  intros n.
  generalize {| total := n; byJobTitle := ∅; byLocation := ∅;
                byEmploymentType := ∅ |}.
  assert (Ht : forall v o e', tally v o = inl e' -> e' = cannot_convert).
  { intros v o e'. unfold tally. destruct v as [x|]; [|done].
    destruct (truthy (Some x)); [|done].
    destruct (ToString x) as [e1|k] eqn:E; simpl; [|done].
    intros [= <-]. by apply ToString_throws in E. }
  induction jobsData as [|job rest IH]; intros stats; simpl; [done|].
  destruct (ExtractToExcel.countJob stats job) as [e1|stats'] eqn:E; simpl.
  - intros [= <-]. unfold ExtractToExcel.countJob in E.
    destruct (tally (get_prop (js "jobTitle") job) _) as [e2|?] eqn:E2;
      simpl in E; [injection E as <-; by eapply Ht|].
    destruct (tally (get_prop (js "location") job) _) as [e3|?] eqn:E3;
      simpl in E; [injection E as <-; by eapply Ht|].
    destruct (tally (get_prop (js "employmentType") job) _) as [e4|?] eqn:E4;
      simpl in E; [injection E as <-; by eapply Ht|done].
  - apply IH.
Qed.

(** Building the workbook can only throw a plain JavaScript error. *)
Lemma buildWorkbook_throws (jobsData : list object) (e : exn) :
  ExtractToExcel.buildWorkbook jobsData = inl e ->
  exists name message, e = JsError name message.
Proof.
  unfold ExtractToExcel.buildWorkbook.
  destruct (map_throwing ExtractToExcel.summaryRow jobsData) as [e'|rows] eqn:Es;
    simpl.
  - intros [= <-]. revert e' Es.
    induction jobsData as [|job rest IH]; intros e'; simpl; [done|].
    destruct (ExtractToExcel.summaryRow job) as [e1|r] eqn:E1; simpl.
    + intros [= <-]. by eapply summaryRow_throws.
    + destruct (map_throwing ExtractToExcel.summaryRow rest) as [e2|rs];
        simpl; [|done].
      intros [= <-]. by apply IH.
  - clear Es.
    destruct (ExtractToExcel.detailRows 0 jobsData) as [e'|details] eqn:Ed;
      simpl.
    + intros [= <-]. revert e' Ed. generalize 0%nat.
      induction jobsData as [|job rest IH]; intros index e'; simpl; [done|].
      destruct (ExtractToExcel.detailRow index job) as [e1|r] eqn:E1; simpl.
      * intros [= <-]. by eapply detailRow_throws.
      * destruct (ExtractToExcel.detailRows (Datatypes.S index) rest)
          as [e2|rs] eqn:E2; simpl; [|done].
        intros [= <-]. by eapply IH.
    + destruct (ExtractToExcel.computeStats jobsData) as [e'|stats] eqn:Ec;
        simpl; [|done].
      intros [= <-]. apply computeStats_throws in Ec as ->.
      unfold cannot_convert. eauto.
Qed.

Lemma createExcelFile_throws (XLSX_write : workbook -> jsstring + Buffer)
    (jobsData : list object) (e : exn) :
  ExtractToExcel.createExcelFile XLSX_write jobsData = inl e ->
  exists name message, e = JsError name message.
Proof.
  unfold ExtractToExcel.createExcelFile.
  destruct (ExtractToExcel.buildWorkbook jobsData) as [e'|wb] eqn:E; simpl.
  - intros [= <-]. by eapply buildWorkbook_throws.
  - destruct (XLSX_write wb) as [message|buffer]; simpl; [|done].
    intros [= <-]. eauto.
Qed.

Lemma parseReply_parsed (JSON_parse : jsstring -> jsstring + object)
    (answer : exn + chat_response) (structuredData : object) :
  parseReply JSON_parse answer = inr structuredData ->
  exists text, JSON_parse text = inr structuredData.
Proof.
  unfold parseReply. destruct answer as [e|response]; simpl; [done|].
  destruct (rs_content response) as [message|aiResponse]; [done|].
  destruct (jsonMatch aiResponse) as [m|]; [|done].
  destruct (JSON_parse m) as [message|o] eqn:E; [done|].
  intros [= <-]. by exists m.
Qed.

Section BatchRecords.

Context (cheerio_load : json -> jsstring + document).
Context (JSON_parse : jsstring -> jsstring + object).
Context {S : Type} (w : world S).

Local Abbreviation processUrls :=
  (ExtractToExcel.processUrls cheerio_load JSON_parse).

(** Every record of the loop fits the report, unless it was built from a
    parsed reply that does not. *)
Lemma processUrls_fit urls apiKey jobsData s :
  exists news,
    value (run w (processUrls urls apiKey jobsData) s) = jobsData ++ news
    /\ Forall (fun job =>
                 fits_report job = true
                 \/ exists text structuredData url t,
                      JSON_parse text = inr structuredData
                      /\ job = withSource structuredData url t
                      /\ fits_report structuredData = false) news.
Proof.
  revert jobsData s. induction urls as [|url rest IH]; intros jobsData s.
  - exists []. simpl. by rewrite app_nil_r.
  - simpl.
    destruct (on_get w s url) as [[error|data] s1]; simpl.
    + destruct (on_now w s1) as [t s2]; simpl.
      loop_ih IH as (news & Hv & HF) with job; exists (job :: news); subst job.
      rewrite Hv, <- app_assoc. split; [done|].
      constructor; [left; apply fallbackJob_fits|done].
    + destruct (cheerio_load data) as [message|loaded]; simpl.
      { destruct (on_now w s1) as [t s2]; simpl.
        loop_ih IH as (news & Hv & HF) with job; exists (job :: news); subst job.
        rewrite Hv, <- app_assoc. split; [done|].
        constructor; [left; apply fallbackJob_fits|done]. }
      destruct (on_post w s1 _) as [answer s2]; simpl.
      destruct (parseReply JSON_parse answer) as [error|structuredData] eqn:E;
        simpl; destruct (on_now w s2) as [t s3]; simpl;
        loop_ih IH as (news & Hv & HF) with job; exists (job :: news); subst job;
        rewrite Hv, <- app_assoc; (split; [done|]);
        (constructor; [|done]).
      * left. apply fallbackJob_fits.
      * destruct (fits_report structuredData) eqn:Hfit.
        -- left. by rewrite withSource_fits.
        -- right. apply parseReply_parsed in E as [text E].
           by exists text, structuredData, url, (toISOString t).
Qed.

End BatchRecords.

(** C3. The claim fails on the code: the report is built outside the
    handler of the per-item failures, and the builder reads [job.salary.min]
    of a record parsed from the reply without the guard it puts on the
    other fields. A batch whose only item was fetched and structured, the
    service having replied with an empty object, ends in a 500 response in
    place of the spreadsheet. *)
Theorem batch_fails_on_reply_without_salary :
  let parse := table_parse [(js "{}", [])] in
  let start :=
    Script [ inr (JStr (js "<html>a job page</html>")) ]
           [ inr (ChatResponse 200 (inr (js "{}"))) ]
           1700000000000 in
  let o := run scripted
             (ExtractToExcel.POST sample_load parse sample_write
                (Fields (ExtractToExcel.Request (Some [js "https://a.example/job"])
                           (Some (js "sk-test"))))) start in
  value o
  = Json 500
      (error_body
         (js "Processing error: Cannot read properties of undefined (reading 'min')"))
  /\ posted (trace o)
     = [structuringRequest (js "EngineerAbout the job We are hiring. Join us.")
          (js "sk-test")]
  /\ length (fetched (trace o)) = 1%nat.
Proof. intros parse start o. repeat split; vm_compute; reflexivity. Qed.
(** ** Statistics *)

Lemma entries_total_perm (l l' : list (jsstring * count)) :
  l ≡ₚ l' -> entries_total l = entries_total l'.
Proof.
  induction 1 as [|e l l' _ IH|e e' l|l l' l'' _ IH _ IH']; simpl.
  - done.
  - by rewrite IH.
  - lia.
  - by rewrite IH.
Qed.

Lemma numbers_total_entryRows (o : gmap jsstring count) :
  numbers_total (ExtractToExcel.entryRows o) = entries_total (map_to_list o).
Proof.
  unfold ExtractToExcel.entryRows.
  induction (map_to_list o) as [|[k c] l IH]; simpl; [done|].
  rewrite IH. by destruct c.
Qed.

Lemma entries_total_insert_fresh (o : gmap jsstring count) k c :
  o !! k = None ->
  entries_total (map_to_list (<[k := c]> o))
  = count_value c + entries_total (map_to_list o).
Proof.
  intros Hk. by rewrite (entries_total_perm _ _ (map_to_list_insert o k c Hk)).
Qed.

Lemma entries_total_insert_over (o : gmap jsstring count) k c c' :
  o !! k = Some c ->
  entries_total (map_to_list (<[k := c']> o)) + count_value c
  = count_value c' + entries_total (map_to_list o).
Proof.
  intros Hk.
  rewrite <- (entries_total_perm _ _ (map_to_list_delete o k c Hk)).
  rewrite <- insert_delete_eq.
  rewrite entries_total_insert_fresh by apply lookup_delete_eq.
  simpl. lia.
Qed.

Section Increment.

Context (o : gmap jsstring count) (k : jsstring).
Hypothesis Ho : only_counts o.
Hypothesis Hk : inherited k = None.

Lemma increment_plain :
  increment k o = <[k := Count (number_at o k + 1)]> o.
Proof.
  unfold increment, number_at.
  destruct (o !! k) as [c|] eqn:E.
  - by destruct (Ho k c E) as (n & -> & _).
  - by rewrite Hk.
Qed.

Lemma increment_only_counts : only_counts (increment k o).
Proof.
  rewrite increment_plain. intros k' c.
  destruct (decide (k = k')) as [<-|Hne].
  - rewrite lookup_insert_eq. intros [= <-]. eexists. split; [done|lia].
  - rewrite lookup_insert_ne by done. apply Ho.
Qed.

Lemma increment_number_at k' :
  number_at (increment k o) k'
  = number_at o k' + (if bool_decide (k = k') then 1 else 0).
Proof.
  rewrite increment_plain. unfold number_at at 1.
  destruct (decide (k = k')) as [<-|Hne].
  - rewrite lookup_insert_eq, bool_decide_eq_true_2 by done. done.
  - rewrite lookup_insert_ne, bool_decide_eq_false_2 by done.
    unfold number_at. lia.
Qed.

Lemma increment_total :
  entries_total (map_to_list (increment k o))
  = entries_total (map_to_list o) + 1.
Proof.
  rewrite increment_plain. unfold number_at.
  destruct (o !! k) as [c|] eqn:E.
  - destruct (Ho k c E) as (n & -> & _).
    pose proof (entries_total_insert_over o k (Count n) (Count (n + 1)) E) as H.
    simpl in H. lia.
  - rewrite entries_total_insert_fresh by done. simpl. lia.
Qed.

End Increment.

Lemma only_counts_number_at (o : gmap jsstring count) (k : jsstring) :
  only_counts o ->
  o !! k = if number_at o k =? 0 then None else Some (Count (number_at o k)).
Proof.
  intros Ho. unfold number_at. destruct (o !! k) as [c|] eqn:E; [|done].
  destruct (Ho k c E) as (n & -> & Hn).
  destruct (N.eqb_spec n 0); [lia|done].
Qed.

Lemma tally_truthy (v : json) (o : gmap jsstring count) :
  truthy (Some v) = true ->
  tally (Some v) o = (k <-? ToString v ;; inr (increment k o)).
Proof. unfold tally. by intros ->. Qed.

Lemma tally_falsy (v : option json) (o : gmap jsstring count) :
  truthy v = false -> tally v o = inr o.
Proof. unfold tally. destruct v; [by intros ->|done]. Qed.

(** Counting one field over the records, from a counting object [o]. *)
Lemma tally_fold (field : jsstring) (jobsData : list object)
    (o o' : gmap jsstring count) :
  only_counts o ->
  (forall job v key, In job jobsData -> get_prop field job = Some v ->
                     truthy (Some v) = true -> ToString v = inr key ->
                     inherited key = None) ->
  foldl_throwing (fun m job => tally (get_prop field job) m) o jobsData
  = inr o' ->
  only_counts o'
  /\ entries_total (map_to_list o')
     = entries_total (map_to_list o) + count_if (has_value field) jobsData
  /\ forall k, number_at o' k
               = number_at o k + count_if (grouped_under field k) jobsData.
Proof.
  revert o. induction jobsData as [|job rest IH]; intros o Ho Hnames;
    cbn [foldl_throwing count_if].
  - intros [= <-]. split; [done|]. split; [lia|]. intros k. lia.
  - assert (Hrest : forall job' v key, In job' rest ->
                      get_prop field job' = Some v ->
                      truthy (Some v) = true -> ToString v = inr key ->
                      inherited key = None).
    { intros job' v key Hin. apply Hnames. by right. }
    unfold has_value at 1. unfold grouped_under at 1.
    destruct (get_prop field job) as [v|] eqn:E.
    + destruct (truthy (Some v)) eqn:Ht.
      * rewrite (tally_truthy v o Ht).
        destruct (ToString v) as [e|key] eqn:Ek; [done|].
        cbn [and_then]. intros Hfold.
        pose proof (Hnames job v key (or_introl eq_refl) E Ht Ek) as Hk.
        destruct (IH (increment key o) (increment_only_counts o _ Ho Hk)
                    Hrest Hfold) as (H1 & H2 & H3).
        split; [done|]. split.
        -- rewrite H2, increment_total by done. lia.
        -- intros k. rewrite H3, increment_number_at by done.
           unfold jsstring_eqb. cbn [andb]. lia.
      * rewrite (tally_falsy (Some v) o Ht). cbn [and_then]. intros Hfold.
        destruct (IH o Ho Hrest Hfold) as (H1 & H2 & H3).
        split; [done|]. split; [by rewrite H2|].
        intros k. by rewrite H3.
    + rewrite (tally_falsy None o eq_refl). cbn [and_then]. intros Hfold.
      destruct (IH o Ho Hrest Hfold) as (H1 & H2 & H3).
      split; [done|]. split; [by rewrite H2|]. intros k. by rewrite H3.
Qed.

(** The callback counts each field on its own. *)
Lemma foldl_countJob (stats stats' : statistics) (jobsData : list object) :
  foldl_throwing ExtractToExcel.countJob stats jobsData = inr stats' ->
  total stats' = total stats
  /\ foldl_throwing (fun m job => tally (get_prop (js "jobTitle") job) m)
       (byJobTitle stats) jobsData = inr (byJobTitle stats')
  /\ foldl_throwing (fun m job => tally (get_prop (js "location") job) m)
       (byLocation stats) jobsData = inr (byLocation stats')
  /\ foldl_throwing (fun m job => tally (get_prop (js "employmentType") job) m)
       (byEmploymentType stats) jobsData = inr (byEmploymentType stats').
Proof.
  revert stats. induction jobsData as [|job rest IH]; intros stats;
    cbn [foldl_throwing].
  - by intros [= <-].
  - unfold ExtractToExcel.countJob at 1.
    destruct (tally (get_prop (js "jobTitle") job) _) as [e|j]; [done|].
    destruct (tally (get_prop (js "location") job) _) as [e|l]; [done|].
    destruct (tally (get_prop (js "employmentType") job) _) as [e|t]; [done|].
    cbn [and_then]. intros Hfold. by destruct (IH _ Hfold) as (? & ? & ? & ?).
Qed.

Lemma forallb_false {A} (f : A -> bool) (l : list A) :
  forallb f l = false -> exists a, In a l /\ f a = false.
Proof.
  induction l as [|a l IH]; simpl; [done|].
  destruct (f a) eqn:E; simpl.
  - intros H. destruct (IH H) as (a' & Hin & Ha'). exists a'. by split; [right|].
  - intros _. exists a. by split; [left|].
Qed.

Lemma countable_false (v : option json) :
  countable v = false ->
  exists x, v = Some x /\ truthy (Some x) = true
            /\ ToString x = inl cannot_convert.
Proof.
  unfold countable. destruct v as [x|]; [|done].
  destruct (truthy (Some x)) eqn:Ht; [|done].
  destruct (ToString x) as [e|k] eqn:E; [|done].
  intros _. exists x. pose proof (ToString_throws _ _ E) as ->. done.
Qed.

(** C5 (amended). For every list of records for which the statistics are
    computed, the statistics sheet reports as total the number of records,
    which is the number of rows of the detail sheet whenever the report is
    built; and for each of the three grouping fields ([jobTitle],
    [location], [employmentType]), provided no grouping key names a member
    inherited from [Object.prototype]: the entry of a key is exactly the
    number of records whose field is truthy (present and not the empty
    string) and, as a property key, equal to that key by exact string
    equality, keys without such a record having no entry; and the counts
    shown for the field sum to the number of records whose field is truthy.
    Records whose field is absent or empty are left out of that aggregation
    only. The statistics are computed for every list of records but those
    in which a grouping value cannot be converted to a property key: the
    builder then throws and there is no report at all. *)
Theorem statistics_counts (XLSX_write : workbook -> jsstring + Buffer)
    (jobsData : list object) :
  (forall job field v key,
     In job jobsData ->
     In field [js "jobTitle"; js "location"; js "employmentType"] ->
     get_prop field job = Some v -> truthy (Some v) = true ->
     ToString v = inr key -> inherited key = None) ->
  let exact (field : jsstring) (group : gmap jsstring count) :=
    (forall key,
       group !! key
       = if count_if (grouped_under field key) jobsData =? 0 then None
         else Some (Count (count_if (grouped_under field key) jobsData)))
    /\ numbers_total (ExtractToExcel.entryRows group)
       = count_if (has_value field) jobsData in
  match ExtractToExcel.computeStats jobsData with
  | inr stats =>
    total stats = N.of_nat (length jobsData)
    /\ (forall excelBuffer,
          ExtractToExcel.createExcelFile XLSX_write jobsData = inr excelBuffer ->
          exists summaryData detailData,
            let workbook := [ (js "求人一覧", summaryData);
                              (js "詳細情報", detailData);
                              (js "統計情報", ExtractToExcel.statsData stats) ] in
            ExtractToExcel.buildWorkbook jobsData = inr workbook
            /\ XLSX_write workbook = inr excelBuffer
            /\ length summaryData = length jobsData
            /\ length detailData = length jobsData
            /\ head (ExtractToExcel.statsData stats)
               = Some (ExtractToExcel.statRow (js "総求人数")
                         (Number (N.of_nat (length detailData)))))
    /\ exact (js "jobTitle") (byJobTitle stats)
    /\ exact (js "location") (byLocation stats)
    /\ exact (js "employmentType") (byEmploymentType stats)
  | inl error =>
    (exists job field v,
       In job jobsData
       /\ In field [js "jobTitle"; js "location"; js "employmentType"]
       /\ get_prop field job = Some v /\ truthy (Some v) = true
       /\ ToString v = inl error)
    /\ forall excelBuffer,
         ExtractToExcel.createExcelFile XLSX_write jobsData <> inr excelBuffer
  end.
Proof.
  intros Hnames exact.
  destruct (ExtractToExcel.computeStats jobsData) as [error|stats] eqn:Ec.
  - pose proof (computeStats_succeeds jobsData) as Hs. rewrite Ec in Hs.
    apply computeStats_throws in Ec as Herr. subst error. split.
    + symmetry in Hs. apply forallb_false in Hs as (job & Hin & Hjob).
      exists job. unfold groups_fit in Hjob.
      destruct (countable (get_prop (js "jobTitle") job)) eqn:E1.
      * destruct (countable (get_prop (js "location") job)) eqn:E2.
        -- simpl in Hjob.
           apply countable_false in Hjob as (x & Hx & Ht & Hc).
           exists (js "employmentType"), x. simpl. tauto.
        -- apply countable_false in E2 as (x & Hx & Ht & Hc).
           exists (js "location"), x. simpl. tauto.
      * apply countable_false in E1 as (x & Hx & Ht & Hc).
        exists (js "jobTitle"), x. simpl. tauto.
    + intros excelBuffer. unfold ExtractToExcel.createExcelFile,
        ExtractToExcel.buildWorkbook.
      destruct (map_throwing ExtractToExcel.summaryRow jobsData); [done|].
      cbn [and_then].
      destruct (ExtractToExcel.detailRows 0 jobsData); [done|].
      cbn [and_then]. by rewrite Ec.
  - destruct (foldl_countJob _ stats jobsData Ec) as (Ht & Hj & Hl & He).
    cbn [total byJobTitle byLocation byEmploymentType] in Ht, Hj, Hl, He.
    assert (Hexact : forall field group,
               In field [js "jobTitle"; js "location"; js "employmentType"] ->
               foldl_throwing (fun m job => tally (get_prop field job) m)
                 ∅ jobsData = inr group ->
               exact field group).
    { intros field group Hfield Hfold.
      destruct (tally_fold field jobsData ∅ group) as (H1 & H2 & H3).
      - intros k c Hk. by rewrite lookup_empty in Hk.
      - intros job v key Hin. by apply Hnames.
      - done.
      - split.
        + intros key. rewrite (only_counts_number_at _ key H1), H3.
          assert (number_at ∅ key = 0) as ->
            by (unfold number_at; by rewrite lookup_empty).
          by rewrite N.add_0_l.
        + rewrite numbers_total_entryRows, H2.
          by rewrite map_to_list_empty. }
    split; [done|]. split.
    + intros excelBuffer. unfold ExtractToExcel.createExcelFile,
        ExtractToExcel.buildWorkbook.
      destruct (map_throwing ExtractToExcel.summaryRow jobsData)
        as [e|summaryData] eqn:Es; [done|]. cbn [and_then].
      destruct (ExtractToExcel.detailRows 0 jobsData) as [e|detailData] eqn:Ed;
        [done|]. cbn [and_then]. rewrite Ec. cbn [and_then].
      destruct (XLSX_write _) as [message|buffer] eqn:Ew; [done|].
      intros [= <-]. exists summaryData, detailData. cbv zeta.
      split; [done|]. split; [done|].
      split; [by apply map_throwing_length in Es|].
      rewrite (detailRows_length _ _ _ Ed).
      split; [done|]. simpl. by rewrite Ht.
    + split; [|split].
      * apply Hexact; [by left|done].
      * apply Hexact; [right; by left|done].
      * apply Hexact; [right; right; by left|done].
Qed.

(** C5 on three records: two engineers and one record without title. *)
Lemma statistics_counts_sample :
  let jobsData :=
    [ sampleStructured (JStr (js "Engineer")) (JStr (js "東京")) JNull;
      sampleStructured (JStr (js "Engineer")) (JStr (js "大阪")) (JStr (js "正社員"));
      sampleStructured JNull (JStr (js "東京")) JNull ] in
  exists stats,
    ExtractToExcel.computeStats jobsData = inr stats
    /\ byJobTitle stats !! js "Engineer" = Some (Count 2)
    /\ byJobTitle stats !! js "engineer" = None
    /\ numbers_total (ExtractToExcel.entryRows (byJobTitle stats)) = 2
    /\ numbers_total (ExtractToExcel.entryRows (byLocation stats)) = 3
    /\ total stats = 3.
Proof.
  intros jobsData.
  assert (Hnames : forall job field v key,
             In job jobsData ->
             In field [js "jobTitle"; js "location"; js "employmentType"] ->
             get_prop field job = Some v -> truthy (Some v) = true ->
             ToString v = inr key -> inherited key = None).
  { intros job field v key Hjob Hfield Hget _ Hkey.
    repeat (destruct Hjob as [<-|Hjob]);
      repeat (destruct Hfield as [<-|Hfield]);
      try contradiction;
      vm_compute in Hget; injection Hget as <-;
      vm_compute in Hkey; injection Hkey as <-; by vm_compute. }
  pose proof (statistics_counts sample_write jobsData Hnames) as H.
  destruct (ExtractToExcel.computeStats jobsData) as [error|stats] eqn:E.
  - exfalso. vm_compute in E. discriminate E.
  - exists stats. split; [done|].
    destruct H as (Htotal & _ & [Hkey Hsum] & [_ Hloc] & _).
    split; [rewrite Hkey; by vm_compute|].
    split; [rewrite Hkey; by vm_compute|].
    split; [rewrite Hsum; by vm_compute|].
    split; [rewrite Hloc; by vm_compute|].
    rewrite Htotal. by vm_compute.
Defined.

(** C5, as stated, fails: a record whose [jobTitle] is present as the
    empty string is left out of the aggregation by job title, so the counts
    of that field sum to 0 with one record having the field. *)
Lemma statistics_skip_empty_title :
  let job := sampleStructured (JStr []) (JStr (js "東京")) JNull in
  get_prop (js "jobTitle") job = Some (JStr [])
  /\ succeeded (ExtractToExcel.createExcelFile sample_write [job]) = true
  /\ exists stats,
       ExtractToExcel.computeStats [job] = inr stats
       /\ byJobTitle stats = ∅
       /\ numbers_total (ExtractToExcel.entryRows (byJobTitle stats)) = 0
       /\ numbers_total (ExtractToExcel.entryRows (byLocation stats)) = 1.
Proof.
  intros job. split; [by vm_compute|]. split; [by vm_compute|].
  eexists. split; [by vm_compute|]. repeat split; by vm_compute.
Qed.

(** A grouping key that names a method of [Object.prototype] is not
    counted: the sheet shows a text in place of the count. *)
Example statistics_inherited_name :
  let job := sampleStructured (JStr (js "constructor")) JNull JNull in
  option_map (fun stats => byJobTitle stats !! js "constructor")
    (match ExtractToExcel.computeStats [job; job] with
     | inr stats => Some stats
     | inl _ => None
     end)
  = Some (Some (Garbled (js "function Object() { [native code] }11"))).
Proof. by vm_compute. Qed.

(** A grouping value that has a [toString] property of its own cannot be
    converted to a property key: counting throws, and so does the
    builder. *)
Example statistics_unconvertible_key :
  let job := sampleStructured (JObj [(js "toString", JNull)]) JNull JNull in
  ExtractToExcel.computeStats [job] = inl cannot_convert
  /\ ExtractToExcel.createExcelFile sample_write [job] = inl cannot_convert.
Proof. split; by vm_compute. Qed.

(** ** Content selection *)

(** The loop over the candidates keeps a text at least as long as what it
    started with and as every candidate, and that is what it started with
    or one of the candidates. *)
Lemma consider_fold (doc : document) (sels : list selector) (start : jsstring) :
  let r := foldl (consider doc) start sels in
  (r = start \/ exists sel, In sel sels /\ r = trim (text doc sel))
  /\ (length start <= length r)%nat
  /\ forall sel, In sel sels -> (length (trim (text doc sel)) <= length r)%nat.
Proof.
  revert start. induction sels as [|sel sels IH]; intros start; cbn [foldl].
  - split; [by left|]. split; [done|]. by intros sel [].
  - destruct (IH (consider doc start sel)) as (H1 & H2 & H3).
    assert (Hc : (consider doc start sel = start
                  \/ consider doc start sel = trim (text doc sel))
                 /\ (length start <= length (consider doc start sel))%nat
                 /\ (length (trim (text doc sel))
                     <= length (consider doc start sel))%nat).
    { unfold consider.
      destruct (truthy_str (trim (text doc sel))) eqn:Et; simpl.
      - case_bool_decide; [split; [by right|lia]|split; [by left|lia]].
      - destruct (trim (text doc sel)); [|done]. split; [by left|simpl; lia]. }
    destruct Hc as (Hc1 & Hc2 & Hc3).
    split; [|split].
    + destruct H1 as [H1|(sel' & Hin & H1)].
      * destruct Hc1 as [Hc1|Hc1]; rewrite H1, Hc1; [by left|].
        right. exists sel. split; [by left|done].
      * right. exists sel'. split; [by right|done].
    + lia.
    + intros sel' [<-|Hin]; [lia|by apply H3].
Qed.

(** C6 (amended). For every cleaned document, the candidates being the
    trimmed texts of the content selectors: when some candidate is not
    empty, the extractor selects a candidate that no candidate exceeds in
    length (so never the text of a candidate shorter than another one), and
    it falls back to the trimmed text of the body when every candidate is
    empty, whether its selector matches nothing or only blank text; so with
    a [main] of 40 characters, an [article] of 120 and every other
    candidate shorter than that, the text of the [article] is selected. The
    content the extractor returns for a page is this selection, made on the
    loaded page without its noise elements, with white space normalised. *)
Theorem longest_candidate_selected (doc : document) :
  let candidate := fun sel => trim (text doc sel) in
  let mainContent := selectMainContent doc in
  ((exists sel, In sel contentSelectors /\ candidate sel <> []) ->
   (exists sel, In sel contentSelectors /\ candidate sel <> []
                /\ mainContent = candidate sel)
   /\ (forall sel, In sel contentSelectors ->
                   (length (candidate sel) <= length mainContent)%nat)
   /\ (forall A B, In A contentSelectors -> In B contentSelectors ->
                   (length (candidate B) < length (candidate A))%nat ->
                   mainContent <> candidate B))
  /\ ((forall sel, In sel contentSelectors -> candidate sel = []) ->
      mainContent = trim (text doc (Tag "body")))
  /\ (length (candidate (Tag "main")) = 40%nat ->
      length (candidate (Tag "article")) = 120%nat ->
      (forall sel, In sel contentSelectors ->
                   sel <> Tag "main" -> sel <> Tag "article" ->
                   (length (candidate sel) < 120)%nat) ->
      mainContent = candidate (Tag "article"))
  /\ (forall (cheerio_load : json -> jsstring + document)
             (S : Type) (w : world S) (s s1 : S) (url : jsstring)
             (data : json) (loaded : document),
        on_get w s url = (inr data, s1) ->
        cheerio_load data = inr loaded ->
        remove noise loaded = doc ->
        value (run w (ExtractToExcel.extractContentFromUrl cheerio_load url) s)
        = inr (cleanText mainContent)).
Proof.
  intros candidate mainContent.
  destruct (consider_fold doc contentSelectors []) as (H1 & _ & H3).
  set (r := foldl (consider doc) [] contentSelectors) in *.
  assert (Hm : mainContent
               = if truthy_str r then r else trim (text doc (Tag "body")))
    by done.
  assert (Hlongest : (exists sel, In sel contentSelectors /\ candidate sel <> []) ->
            mainContent = r
            /\ exists sel, In sel contentSelectors /\ candidate sel <> []
                           /\ r = candidate sel).
  { intros (sel & Hin & Hne).
    assert (Hr : r <> []).
    { intros Hr. specialize (H3 sel Hin). rewrite Hr in H3.
      fold (candidate sel) in H3. destruct (candidate sel); [done|simpl in H3; lia]. }
    split; [rewrite Hm; by destruct r|].
    destruct H1 as [H1|(sel' & Hin' & H1)]; [done|].
    exists sel'. split; [done|]. split; [|done].
    fold (candidate sel') in H1. by rewrite <- H1. }
  split; [|split; [|split]]; cycle 3.
  { intros cheerio_load S w s s1 url data loaded Hget Hload <-.
    unfold ExtractToExcel.extractContentFromUrl. simpl.
    rewrite Hget. simpl. by rewrite Hload. }
  - intros Hsome. destruct (Hlongest Hsome) as (-> & sel & Hin & Hne & Hr).
    split; [by exists sel|]. split; [exact H3|].
    intros A B HA HB Hlt Heq.
    specialize (H3 A HA). fold (candidate A) in H3. rewrite Heq in H3. lia.
  - intros Hnone. rewrite Hm.
    destruct H1 as [->|(sel & Hin & ->)]; [done|].
    fold (candidate sel). by rewrite (Hnone sel Hin).
  - intros Hmain Harticle Hothers.
    assert (Hin : In (Tag "article") contentSelectors)
      by (unfold contentSelectors; simpl; tauto).
    destruct Hlongest as (-> & sel & Hsel & Hne & Hr).
    { exists (Tag "article"). split; [done|].
      intros E. rewrite E in Harticle. done. }
    destruct (decide (sel = Tag "article")) as [->|Hsel']; [done|].
    specialize (H3 _ Hin). fold (candidate (Tag "article")) in H3.
    destruct (decide (sel = Tag "main")) as [->|Hsel''].
    + rewrite <- Hr in Hmain. lia.
    + specialize (Hothers sel Hsel Hsel'' Hsel'). rewrite <- Hr in Hothers. lia.
Qed.

(** C6, as stated, fails: the only candidate present is a [main] element
    holding blank text, and the extractor selects the text of the body, not
    the text of that candidate. *)
Lemma blank_candidate_falls_back_to_body :
  let doc := [ Element "html" []
                 [ Element "body" []
                     [ Element "main" [] [Text (js "   ")];
                       Element "p" [] [Text (js "Apply by mail.")] ] ] ] in
  select (Tag "main") doc = [Element "main" [] [Text (js "   ")]]
  /\ Forall (fun sel => sel = Tag "main" \/ select sel doc = []) contentSelectors
  /\ remove noise doc = doc
  /\ selectMainContent doc = js "Apply by mail."
  /\ selectMainContent doc = trim (text doc (Tag "body"))
  /\ selectMainContent doc <> trim (text doc (Tag "main")).
Proof.
  intros doc. split; [by vm_compute|]. split.
  - unfold contentSelectors.
    repeat (constructor; [first [by left | right; by vm_compute]|]).
    constructor.
  - split; [by vm_compute|]. split; [by vm_compute|]. split; by vm_compute.
Qed.

(** The scenario of C6 on a page: a [main] of 40 characters and an
    [article] of 120. *)
Example main_40_article_120 :
  let page := [ Element "html" []
                  [ Element "body" []
                      [ Element "main" [] [Text (replicate 40 97)];
                        Element "article" [] [Text (replicate 120 98)] ] ] ] in
  value (run scripted
           (ExtractToExcel.extractContentFromUrl (fun _ => inr page)
              (js "https://a.example/job"))
           (Script [inr (JStr (js "<html>a job page</html>"))] []
              1700000000000))
  = inr (replicate 120 98).
Proof. by vm_compute. Qed.

(** ** Degraded records *)

(** The failures of structuring: the call itself, a body without reply
    text, a reply without braces, a text that does not parse. *)
Lemma parseReply_failure (JSON_parse : jsstring -> jsstring + object)
    (answer : exn + chat_response) (error : exn) :
  parseReply JSON_parse answer = inl error <->
  answer = inl error
  \/ exists response,
       answer = inr response
       /\ ((exists message,
              rs_content response = inl message
              /\ error = JsError "TypeError" message)
           \/ (exists aiResponse,
                 rs_content response = inr aiResponse
                 /\ jsonMatch aiResponse = None
                 /\ error = JsError "Error"
                              (js "No valid JSON found in AI response"))
           \/ (exists aiResponse m message,
                 rs_content response = inr aiResponse
                 /\ jsonMatch aiResponse = Some m
                 /\ JSON_parse m = inl message
                 /\ error = JsError "SyntaxError" message)).
Proof.
  unfold parseReply. destruct answer as [e|response]; simpl.
  - split; [intros [= <-]; by left|].
    intros [[= <-]|(response & [=] & _)]. done.
  - split.
    + intros H. right. exists response. split; [done|].
      destruct (rs_content response) as [message|aiResponse].
      * injection H as <-. left. by exists message.
      * right. destruct (jsonMatch aiResponse) as [m|] eqn:Em.
        -- destruct (JSON_parse m) as [message|o] eqn:Ep; [|done].
           injection H as <-. right. by exists aiResponse, m, message.
        -- injection H as <-. left. by exists aiResponse.
    + intros [[=]|(response' & [= <-] & H)].
      destruct H as [(message & -> & ->)|[(aiResponse & -> & -> & ->)|
                    (aiResponse & m & message & -> & -> & -> & ->)]]; done.
Qed.



(** C7 on a reply without braces and on a status the route has no text
    for. *)
Example degraded_record_other_failures :
  let run_with answer :=
    get_prop (js "jobDescription")
      (value (run scripted
                (ExtractToExcel.structureJobData (table_parse []) (js "text")
                   (js "https://a.example/job") (js "sk-test"))
                (Script [] [answer] 1700000000000))) in
  run_with (inr (ChatResponse 200 (inr (js "I cannot help with that."))))
  = Some (JStr (js "【AI構造化エラー】No valid JSON found in AI response

【抽出された生データ】
text"))
  /\ run_with (inl (AxiosError (Some 503) None (js "Request failed with status code 503")))
     = Some (JStr (js "【AI構造化エラー】OpenRouter API エラー (503): Request failed with status code 503

【抽出された生データ】
text")).
Proof. split; by vm_compute. Qed.

(** ** Preview *)

(** C8. For every preview request that supplies a credential, every
    structuring call is preceded by the probe of the credential, and one is
    made exactly when the probe classifies the credential as valid: no call
    at all goes to the service when the URL is missing, the page cannot be
    fetched or the fetched page cannot be loaded; otherwise the first call
    is the probe, a short greeting sent with the credential of the request,
    followed by the structuring call, with the same credential and the
    content of the page, if the probe was answered with status 200, and by
    nothing if not; the response carries that verdict as [apiKeyValid].
    When the probe is answered with HTTP 402, it classifies the credential
    as invalid for lack of balance, and the preview response has
    [apiKeyValid] false, that reason as [error] and no structured data. *)
Theorem preview_probes_before_structuring
    (cheerio_load : json -> jsstring + document)
    (JSON_parse : jsstring -> jsstring + object)
    {S : Type} (w : world S) (s : S) (url : option jsstring)
    (apiKey : jsstring) :
  apiKey <> [] ->
  let o := run w (PreviewExtraction.POST cheerio_load JSON_parse
                    (Fields (PreviewExtraction.Request url (Some apiKey)))) s in
  let probe := {| rq_apiKey := apiKey;
                  rq_title := js "API Key Validation";
                  rq_content := js "Hello";
                  rq_max_tokens := 10;
                  rq_temperature := None |} in
  match url with
  | None | Some [] => posted (trace o) = []
  | Some url =>
    match on_get w s url with
    | (inl _, _) => posted (trace o) = []
    | (inr data, s1) =>
      match cheerio_load data with
      | inl _ => posted (trace o) = []
      | inr loaded =>
        let rawData := PreviewExtraction.extractContent loaded in
        let structuring :=
          {| rq_apiKey := apiKey;
             rq_title := js "Job Data Extractor";
             rq_content := structurePrompt_head
                           ++ take 4000 (PreviewExtraction.content rawData)
                           ++ structurePrompt_tail;
             rq_max_tokens := 2000;
             rq_temperature := Some 3 |} in
        let answer := fst (on_post w s1 probe) in
        let keyValidation := PreviewExtraction.classify answer in
        posted (trace o)
        = probe :: (if PreviewExtraction.valid keyValidation
                    then [structuring] else [])
        /\ (PreviewExtraction.valid keyValidation = true <->
            exists response, answer = inr response /\ rs_status response = 200)
        /\ (exists body,
              value o = PreviewExtraction.Preview body
              /\ PreviewExtraction.apiKeyValid body
                 = Some (PreviewExtraction.valid keyValidation))
        /\ (forall apiMessage message,
              answer = inl (AxiosError (Some 402) apiMessage message) ->
              keyValidation
              = PreviewExtraction.Validation false
                  (Some (js "OpenRouter API: 残高不足です。アカウントにクレジットを追加してください。"))
              /\ value o
                 = PreviewExtraction.Preview
                     (PreviewExtraction.PreviewResponse rawData url None
                        (Some (js "OpenRouter API: 残高不足です。アカウントにクレジットを追加してください。"))
                        (Some false)))
      end
    end
  end.
Proof.
  intros Hkey o probe. subst o. unfold PreviewExtraction.POST.
  destruct url as [[|c url]|]; [done| |done].
  destruct apiKey as [|k apiKey]; [done|].
  cbv beta iota delta [read_body PreviewExtraction.url PreviewExtraction.apiKey].
  set (u := c :: url). set (key := k :: apiKey) in *.
  simpl.
  destruct (on_get w s u) as [[error|data] s1]; simpl.
  - by destruct error.
  - destruct (cheerio_load data) as [message|loaded]; simpl; [done|].
    change (PreviewExtraction.probeRequest key) with probe.
    destruct (on_post w s1 probe) as [answer s2] eqn:Eprobe; simpl.
    split; [|split; [|split]].
    + destruct (PreviewExtraction.valid (PreviewExtraction.classify answer));
        simpl; [|done].
      destruct (on_post w s2 _) as [answer' s3]; simpl.
      destruct (parseReply JSON_parse answer'); simpl; [done|].
      by destruct (on_now w s3).
    + destruct answer as [[status apiMessage message|name message]|response];
        simpl.
      * split; [|by intros (? & [=] & _)].
        unfold is_status. by repeat case_bool_decide.
      * split; [done|by intros (? & [=] & _)].
      * rewrite N.eqb_eq. split; [by exists response|].
        by intros (? & [= <-] & ?).
    + destruct (PreviewExtraction.valid (PreviewExtraction.classify answer));
        simpl; [|by eexists].
      destruct (on_post w s2 _) as [answer' s3]; simpl.
      destruct (parseReply JSON_parse answer'); simpl; [by eexists|].
      destruct (on_now w s3). simpl. by eexists.
    + intros apiMessage message ->.
      assert (Hclass : PreviewExtraction.classify
                         (inl (AxiosError (Some 402) apiMessage message))
                       = PreviewExtraction.Validation false
                           (Some (js "OpenRouter API: 残高不足です。アカウントにクレジットを追加してください。"))).
      { unfold PreviewExtraction.classify, is_status.
        by rewrite bool_decide_eq_true_2. }
      rewrite Hclass. split; [done|]. simpl. unfold or_else.
      assert (truthy_str (js "OpenRouter API: 残高不足です。アカウントにクレジットを追加してください。")
              = true) as -> by (by vm_compute).
      reflexivity.
Qed.

(** C8 on a scripted service that answers the probe with HTTP 402: only
    the probe is sent, and the response says why the credential is not
    valid. *)
Lemma preview_payment_required_sample :
  let start :=
    Script [ inr (JStr (js "<html>a job page</html>")) ]
           [ inl (AxiosError (Some 402) (Some (js "Insufficient credits"))
                    (js "Request failed with status code 402")) ]
           1700000000000 in
  let o := run scripted
             (PreviewExtraction.POST sample_load (table_parse [])
                (Fields (PreviewExtraction.Request
                           (Some (js "https://a.example/job"))
                           (Some (js "sk-test"))))) start in
  posted (trace o)
  = [ {| rq_apiKey := js "sk-test";
         rq_title := js "API Key Validation";
         rq_content := js "Hello";
         rq_max_tokens := 10;
         rq_temperature := None |} ]
  /\ value o
     = PreviewExtraction.Preview
         (PreviewExtraction.PreviewResponse
            (PreviewExtraction.extractContent sample_page)
            (js "https://a.example/job") None
            (Some (js "OpenRouter API: 残高不足です。アカウントにクレジットを追加してください。"))
            (Some false)).
Proof.
  intros start o.
  pose proof (preview_probes_before_structuring sample_load (table_parse [])
                scripted start (Some (js "https://a.example/job"))
                (js "sk-test") ltac:(by vm_compute)) as H.
  vm_compute in H. vm_compute.
  destruct H as (Hposted & _ & _ & H402).
  split; [exact Hposted|].
  exact (proj2 (H402 _ _ eq_refl)).
Defined.

(** ** Raw extraction *)

(** C9. For every markup, the raw extraction of the preview route has
    [contentLength] equal to the length of [content], and its [h2Elements]
    are the trimmed texts of the first 5 [h2] elements of the cleaned
    document in document order: all of them when there are at most 5, and
    never more than 5. What the route's extractor returns for a fetched
    page is this extraction of the document loaded from its body; when
    the fetch fails, or the body cannot be loaded, it throws that error. *)
Theorem raw_extraction_invariants (loaded : document) :
  let raw := PreviewExtraction.extractContent loaded in
  let headings :=
    map (fun el => trim (textContent el))
      (select (Tag "h2") (remove noise loaded)) in
  PreviewExtraction.contentLength raw = length (PreviewExtraction.content raw)
  /\ (length (PreviewExtraction.h2Elements raw) <= 5)%nat
  /\ length (PreviewExtraction.h2Elements raw) = min 5 (length headings)
  /\ PreviewExtraction.h2Elements raw ++ drop 5 headings = headings
  /\ forall (cheerio_load : json -> jsstring + document)
            (S : Type) (w : world S) (s : S) (url : jsstring),
       let r := value (run w (PreviewExtraction.extractContentFromUrl
                                cheerio_load url) s) in
       match on_get w s url with
       | (inr data, _) =>
         match cheerio_load data with
         | inr loaded' => r = inr (PreviewExtraction.extractContent loaded')
         | inl message => r = inl (JsError "Error" message)
         end
       | (inl error, _) => r = inl error
       end.
Proof.
  intros raw headings. subst raw. simpl. fold headings.
  split; [done|]. split; [rewrite length_take; lia|].
  split; [by rewrite length_take|]. split; [apply take_drop|].
  intros cheerio_load S w s url.
  unfold PreviewExtraction.extractContentFromUrl. simpl.
  destruct (on_get w s url) as [[error|data] s1]; [done|]. simpl.
  by destruct (cheerio_load data).
Qed.

(** C9 on the sample page: the [h2] inside [nav] goes with the noise. *)
Example raw_extraction_sample :
  PreviewExtraction.extractContent sample_page
  = {| PreviewExtraction.title := js "Engineer | ACME";
       PreviewExtraction.h1 := js "Engineer";
       PreviewExtraction.h2Elements := [js "About the job"];
       PreviewExtraction.content := js "EngineerAbout the job We are hiring. Join us.";
       PreviewExtraction.contentLength := 45 |}.
Proof. by vm_compute. Qed.

(** ** Stand-alone extraction *)

(** C10. For every extraction request handled by the stand-alone
    endpoint: when the URL is not empty, the page is fetched and its body
    is loaded, the endpoint answers with the extraction, whose content is
    the normalised content of the page if that has at most 3000 characters,
    and otherwise its first 3000 characters followed by the marker of three
    dots, 3003 characters in all; and whatever the request, a content
    returned by the endpoint never exceeds 3003 characters. *)
Theorem extract_content_capped
    (cheerio_load : json -> jsstring + document)
    {S : Type} (w : world S) (s : S) (request : request_body (option jsstring)) :
  let answer := value (run w (ExtractContent.POST cheerio_load request) s) in
  (forall body,
     answer = ExtractContent.Extracted body ->
     (length (ExtractContent.content body) <= 3003)%nat)
  /\ (forall (url : jsstring) (s1 : S) (data : json) (loaded : document),
        request = Fields (Some url) -> url <> [] ->
        on_get w s url = (inr data, s1) ->
        cheerio_load data = inr loaded ->
        let mainContent := cleanText (selectMainContent (remove noise loaded)) in
        exists body,
          answer = ExtractContent.Extracted body
          /\ ExtractContent.url body = url
          /\ ((3000 < length mainContent)%nat ->
              ExtractContent.content body = take 3000 mainContent ++ js "..."
              /\ length (ExtractContent.content body) = 3003%nat)
          /\ ((length mainContent <= 3000)%nat ->
              ExtractContent.content body = mainContent)).
Proof.
  intros answer.
  assert (Hdots : length (js "...") = 3%nat) by (by vm_compute).
  assert (Hlimit : forall mainContent,
             (length (ExtractContent.limit mainContent) <= 3003)%nat).
  { intros mainContent. unfold ExtractContent.limit, substring0.
    case_bool_decide; [|lia].
    rewrite length_app, length_take, Hdots. lia. }
  split.
  - intros body. subst answer. unfold ExtractContent.POST.
    destruct request as [message|message|[[|c url]|]]; simpl; try done.
    destruct (on_get w s (c :: url)) as [[error|data] s1]; simpl; [done|].
    destruct (cheerio_load data) as [message|loaded]; simpl; [done|].
    intros [= <-]. apply Hlimit.
  - intros url s1 data loaded -> Hurl Hget Hload mainContent.
    subst answer. unfold ExtractContent.POST.
    destruct url as [|c url]; [done|].
    cbv beta iota delta [read_body]. simpl. rewrite Hget. simpl.
    rewrite Hload. simpl. eexists. split; [reflexivity|].
    unfold ExtractContent.extract.
    cbn [ExtractContent.url ExtractContent.content].
    split; [done|].
    unfold ExtractContent.limit, substring0. fold mainContent.
    split.
    + intros H. rewrite bool_decide_eq_true_2 by done. split; [done|].
      rewrite length_app, length_take, Hdots. lia.
    + intros H. by rewrite bool_decide_eq_false_2 by lia.
Qed.

(** C10 on a page whose content has 3500 characters. *)
Lemma extract_content_capped_sample :
  let page := [ Element "html" []
                  [ Element "body" []
                      [ Element "main" [] [Text (replicate 3500 97)] ] ] ] in
  exists body,
    value (run scripted
             (ExtractContent.POST (fun _ => inr page)
                (Fields (Some (js "https://a.example/job"))))
             (Script [inr (JStr (js "<html>a job page</html>"))] []
                1700000000000))
    = ExtractContent.Extracted body
    /\ ExtractContent.content body = replicate 3000 97 ++ js "...".
Proof.
  intros page.
  destruct (proj2 (extract_content_capped (fun _ => inr page) scripted
                     (Script [inr (JStr (js "<html>a job page</html>"))] []
                        1700000000000)
                     (Fields (Some (js "https://a.example/job"))))
              (js "https://a.example/job")
              (Script [] [] 1700000000000)
              (JStr (js "<html>a job page</html>")) page
              eq_refl ltac:(by vm_compute) eq_refl eq_refl)
    as (body & Hv & _ & Hlong & _).
  exists body. split; [exact Hv|].
  rewrite (proj1 (Hlong ltac:(vm_compute; lia))). by vm_compute.
Defined.

(** * Further properties *)

(** ** Normalisation of the extracted text *)

Lemma trimStart_suffix (s : jsstring) :
  exists sp, s = sp ++ trimStart s /\ Forall (fun c => is_space c = true) sp.
Proof.
  induction s as [|c r (sp & Hr & Hsp)]; simpl.
  - by exists [].
  - destruct (is_space c) eqn:E.
    + exists (c :: sp). split; [by rewrite Hr at 1|by constructor].
    + by exists [].
Qed.

Lemma trimStart_head (s : jsstring) :
  match trimStart s with
  | [] => True
  | c :: _ => is_space c = false
  end.
Proof.
  induction s as [|c r IH]; simpl; [done|].
  destruct (is_space c) eqn:E; [done|]. simpl. done.
Qed.

Lemma trimStart_id (s : jsstring) :
  match s with [] => True | c :: _ => is_space c = false end ->
  trimStart s = s.
Proof. destruct s as [|c r]; simpl; [done|]. by intros ->. Qed.

Lemma trimEnd_prefix (s : jsstring) :
  exists sp, s = trimEnd s ++ sp /\ Forall (fun c => is_space c = true) sp.
Proof.
  induction s as [|c r (sp & Hr & Hsp)]; simpl.
  - by exists [].
  - destruct (trimEnd r) as [|c' r'] eqn:E.
    + destruct (is_space c) eqn:Ec.
      * exists (c :: sp). simpl in Hr. rewrite Hr at 1. split; [done|].
        by constructor.
      * exists sp. simpl in Hr. by rewrite Hr at 1.
    + exists sp. rewrite Hr at 1. done.
Qed.

Lemma trimEnd_last (s : jsstring) :
  match last (trimEnd s) with
  | None => trimEnd s = []
  | Some c => is_space c = false
  end.
Proof.
  induction s as [|c r IH]; simpl; [done|].
  destruct (trimEnd r) as [|c' r'] eqn:E.
  - destruct (is_space c) eqn:Ec; simpl; done.
  - rewrite last_cons. destruct (last (c' :: r')); [done|]. done.
Qed.

Lemma trimEnd_id (s : jsstring) :
  match last s with None => True | Some c => is_space c = false end ->
  trimEnd s = s.
Proof.
  induction s as [|c r IH]; simpl; [done|].
  rewrite last_cons. destruct (last r) as [c'|] eqn:E.
  - intros H. rewrite (IH H). destruct r; [done|done].
  - apply last_None in E as ->. simpl. by intros ->.
Qed.

Lemma trimEnd_head (s : jsstring) (c : N) (r : jsstring) :
  is_space c = false -> exists r', trimEnd (c :: r) = c :: r'.
Proof.
  intros Hc. simpl. destruct (trimEnd r) as [|c' r'].
  - rewrite Hc. by exists [].
  - by exists (c' :: r').
Qed.

(** [trim] leaves a text that neither begins nor ends with white space,
    and changes nothing in such a text. *)
Lemma trim_ends (s : jsstring) :
  match head (trim s) with None => True | Some c => is_space c = false end
  /\ match last (trim s) with None => True | Some c => is_space c = false end.
Proof.
  unfold trim. split.
  - pose proof (trimStart_head s) as H.
    destruct (trimStart s) as [|c r]; [done|].
    destruct (trimEnd_head r c r H) as [r' ->]. done.
  - pose proof (trimEnd_last (trimStart s)) as H.
    by destruct (last (trimEnd (trimStart s))).
Qed.

Lemma trim_id (s : jsstring) :
  match head s with None => True | Some c => is_space c = false end ->
  match last s with None => True | Some c => is_space c = false end ->
  trim s = s.
Proof.
  intros Hh Hl. unfold trim. rewrite trimStart_id; [by apply trimEnd_id|].
  by destruct s.
Qed.

Lemma trim_trim (s : jsstring) : trim (trim s) = trim s.
Proof. destruct (trim_ends s). by apply trim_id. Qed.

Lemma trim_infix (s : jsstring) :
  exists l r, s = l ++ trim s ++ r.
Proof.
  destruct (trimStart_suffix s) as (l & Hl & _).
  destruct (trimEnd_prefix (trimStart s)) as (r & Hr & _).
  exists l, r. unfold trim. by rewrite <- Hr.
Qed.

Lemma trim_length (s : jsstring) : (length (trim s) <= length s)%nat.
Proof.
  destruct (trim_infix s) as (l & r & H). rewrite H at 2.
  rewrite !length_app. lia.
Qed.

Lemma trim_nonempty (s : jsstring) : trim s <> [] -> s <> [].
Proof. intros H ->. by apply H. Qed.

Lemma is_space_32 : is_space 32 = true.
Proof. done. Qed.

Lemma tidy_replace_spaces (b : bool) (s : jsstring) :
  tidy b (replace_spaces b s) = true.
Proof.
  revert b. induction s as [|c r IH]; intros b; simpl; [done|].
  destruct (is_space c) eqn:E.
  - destruct b; [apply IH|]. simpl. apply IH.
  - simpl. rewrite E. apply IH.
Qed.

Lemma tidy_replace_spaces_id (b : bool) (s : jsstring) :
  tidy b s = true -> replace_spaces b s = s.
Proof.
  revert b. induction s as [|c r IH]; intros b; simpl; [done|].
  destruct (is_space c) eqn:E.
  - intros H. apply andb_prop in H as [H Hr]. apply andb_prop in H as [Hc Hb].
    apply N.eqb_eq in Hc as ->. destruct b; [done|]. by rewrite (IH true).
  - intros H. by rewrite (IH false).
Qed.

Lemma tidy_spaces (b : bool) (s : jsstring) :
  tidy b s = true -> Forall (fun c => is_space c = true -> c = 32) s.
Proof.
  revert b. induction s as [|c r IH]; intros b; simpl; [constructor|].
  destruct (is_space c) eqn:E.
  - intros H. apply andb_prop in H as [H Hr]. apply andb_prop in H as [Hc Hb].
    apply N.eqb_eq in Hc. constructor; [done|by apply (IH true)].
  - intros H. constructor; [by rewrite E|by apply (IH false)].
Qed.

Lemma tidy_weaken (b : bool) (s : jsstring) :
  tidy b s = true -> tidy false s = true.
Proof.
  destruct s as [|c r]; simpl; [done|].
  destruct (is_space c); [|done].
  intros H. apply andb_prop in H as [H Hr]. apply andb_prop in H as [Hc Hb].
  by rewrite Hc, Hr.
Qed.

Lemma tidy_no_double_space (b : bool) (s pre post : jsstring) :
  tidy b s = true -> s <> pre ++ 32 :: 32 :: post.
Proof.
  revert b s. induction pre as [|p pre IH]; intros b s Ht ->;
    cbn [app tidy] in Ht.
  - rewrite is_space_32 in Ht. apply andb_prop in Ht as [_ Ht].
    apply andb_prop in Ht as [Ht _]. apply andb_prop in Ht as [_ Ht]. done.
  - destruct (is_space p).
    + apply andb_prop in Ht as [_ Ht]. by apply (IH true _ Ht).
    + by apply (IH false _ Ht).
Qed.

Lemma tidy_trimStart (b : bool) (s : jsstring) :
  tidy b s = true -> tidy false (trimStart s) = true.
Proof.
  revert b. induction s as [|c r IH]; intros b; simpl; [done|].
  destruct (is_space c) eqn:E.
  - intros H. apply andb_prop in H as [_ Hr]. by apply (IH true).
  - intros H. simpl. by rewrite E.
Qed.

Lemma tidy_trimEnd (b : bool) (s : jsstring) :
  tidy b s = true -> tidy b (trimEnd s) = true.
Proof.
  revert b. induction s as [|c r IH]; intros b; simpl; [done|].
  destruct (is_space c) eqn:E.
  - intros H. apply andb_prop in H as [H Hr]. specialize (IH true Hr).
    destruct (trimEnd r) as [|c' r']; [done|].
    change (tidy b (c :: c' :: r'))
      with (if is_space c then (c =? 32) && negb b && tidy true (c' :: r')
            else tidy false (c' :: r')).
    by rewrite E, H, IH.
  - intros H. specialize (IH false H).
    destruct (trimEnd r) as [|c' r']; [cbn [tidy]; by rewrite E|].
    change (tidy b (c :: c' :: r'))
      with (if is_space c then (c =? 32) && negb b && tidy true (c' :: r')
            else tidy false (c' :: r')).
    by rewrite E.
Qed.

Lemma replace_newlines_id (b : bool) (s : jsstring) :
  10 ∉ s -> replace_newlines b s = s.
Proof.
  revert b. induction s as [|c r IH]; intros b H; simpl; [done|].
  apply not_elem_of_cons in H as [Hc Hr].
  destruct (N.eqb_spec c 10); [done|]. by rewrite IH.
Qed.

Lemma tidy_no_newline (b : bool) (s : jsstring) :
  tidy b s = true -> 10 ∉ s.
Proof.
  intros H Hin. apply tidy_spaces in H.
  rewrite Forall_forall in H. by specialize (H 10 Hin eq_refl).
Qed.

Lemma replace_spaces_length (b : bool) (s : jsstring) :
  (length (replace_spaces b s) <= length s)%nat.
Proof.
  revert b. induction s as [|c r IH]; intros b; simpl; [done|].
  pose proof (IH true). pose proof (IH false).
  destruct (is_space c); [destruct b|]; simpl; lia.
Qed.

(** The second replacement of the chain never finds a line feed. *)
Lemma cleanText_trim_replace (s : jsstring) :
  cleanText s = trim (replace_spaces false s).
Proof.
  unfold cleanText. rewrite replace_newlines_id; [done|].
  eapply tidy_no_newline, tidy_replace_spaces.
Qed.

Lemma cleanText_tidy (s : jsstring) : tidy false (cleanText s) = true.
Proof.
  rewrite cleanText_trim_replace. unfold trim.
  apply tidy_trimEnd, (tidy_trimStart false), tidy_replace_spaces.
Qed.

(** X1. The normalised text of the extractors: every white-space character
    left in it is a space, no two spaces are adjacent, and it neither
    begins nor ends with one; normalising it again changes nothing; it is
    never longer than the text it comes from; and the replacement of runs
    of line feeds, the second of the chain, never changes anything. *)
Theorem cleanText_normal_form (s : jsstring) :
  let c := cleanText s in
  Forall (fun ch => is_space ch = true -> ch = 32) c
  /\ (forall pre post, c <> pre ++ 32 :: 32 :: post)
  /\ head c <> Some 32 /\ last c <> Some 32
  /\ cleanText c = c
  /\ (length c <= length s)%nat
  /\ replace_newlines false (replace_spaces false s) = replace_spaces false s.
Proof.
  intros c. pose proof (cleanText_tidy s) as Ht. fold c in Ht.
  assert (Hends : match head c with None => True | Some ch => is_space ch = false end
                  /\ match last c with None => True | Some ch => is_space ch = false end).
  { subst c. rewrite cleanText_trim_replace. apply trim_ends. }
  destruct Hends as [Hh Hl].
  split; [by eapply tidy_spaces|].
  split; [intros pre post; by eapply tidy_no_double_space|].
  split; [intros E; by rewrite E in Hh|].
  split; [intros E; by rewrite E in Hl|].
  split.
  - rewrite cleanText_trim_replace, tidy_replace_spaces_id by done.
    by apply trim_id.
  - split.
    + subst c. rewrite cleanText_trim_replace.
      etrans; [apply trim_length|apply replace_spaces_length].
    + apply replace_newlines_id. eapply tidy_no_newline, tidy_replace_spaces.
Qed.

(** ** Removal of the noise elements *)

Lemma node_induction (P : node -> Prop) :
  (forall s, P (Text s)) ->
  (forall t cs children, Forall P children -> P (Element t cs children)) ->
  forall n, P n.
Proof.
  intros HT HE.
  refine (fix IH (n : node) : P n :=
            match n with
            | Text s => HT s
            | Element t cs children =>
              HE t cs children
                ((fix go (l : list node) : Forall P l :=
                    match l with
                    | [] => ltac:(constructor)
                    | c :: l' =>
                      ltac:(constructor; [exact (IH c)|exact (go l')])
                    end) children)
            end).
Qed.

Lemma concat_map_concat_nil {A B} (f : A -> list B) (g : node -> list A)
    (l : list node) :
  Forall (fun n => concat (map f (g n)) = []) l ->
  concat (map f (concat (map g l))) = [].
Proof.
  induction 1 as [|n l Hn _ IH]; simpl; [done|].
  by rewrite map_app, concat_app, Hn, IH.
Qed.

Lemma concat_map_concat_id (g : node -> list node) (l : list node) :
  Forall (fun n => concat (map g (g n)) = g n) l ->
  concat (map g (concat (map g l))) = concat (map g l).
Proof.
  induction 1 as [|n l Hn _ IH]; simpl; [done|].
  by rewrite map_app, concat_app, Hn, IH.
Qed.

Lemma matches_own (sel : selector) (t : string) (cs : list string)
    (children children' : list node) :
  matches sel (Element t cs children) = matches sel (Element t cs children').
Proof. by destruct sel. Qed.

Lemma existsb_matches_own (group : list selector) (t : string)
    (cs : list string) (children children' : list node) :
  existsb (fun sel => matches sel (Element t cs children)) group
  = existsb (fun sel => matches sel (Element t cs children')) group.
Proof.
  induction group as [|sel group IH]; [done|].
  cbn [existsb]. by rewrite IH, (matches_own sel t cs children children').
Qed.

Lemma kept_not_matching (group : list selector) (sel : selector) (n : node) :
  In sel group -> existsb (fun sel => matches sel n) group = false ->
  matches sel n = false.
Proof.
  intros Hin Hex. destruct (matches sel n) eqn:E; [|done].
  assert (existsb (fun sel => matches sel n) group = true) as H.
  { apply existsb_exists. by exists sel. }
  congruence.
Qed.

Lemma remove_from_select (group : list selector) (sel : selector) (n : node) :
  In sel group ->
  concat (map (select_in sel) (remove_from group n)) = [].
Proof.
  intros Hin. induction n as [s|t cs children IH] using node_induction.
  - done.
  - cbn [remove_from].
    destruct (existsb _ group) eqn:Hex; [done|].
    cbn [map concat select_in]. rewrite app_nil_r.
    rewrite (matches_own sel t cs _ children).
    rewrite (kept_not_matching group sel _ Hin Hex). simpl.
    by apply concat_map_concat_nil.
Qed.

Lemma remove_from_again (group : list selector) (n : node) :
  concat (map (remove_from group) (remove_from group n)) = remove_from group n.
Proof.
  induction n as [s|t cs children IH] using node_induction.
  - done.
  - cbn [remove_from].
    destruct (existsb _ group) eqn:Hex; [done|].
    cbn [map concat remove_from]. rewrite app_nil_r.
    assert (existsb (fun sel => matches sel
                       (Element t cs (concat (map (remove_from group) children))))
              group = false) as ->.
    { rewrite <- Hex. apply existsb_matches_own. }
    by rewrite concat_map_concat_id.
Qed.

(** X2. After the removal of a group of selectors, no element matching one
    of them is left anywhere in the document, so nothing is selected and no
    text is read through such a selector; and removing again changes
    nothing. This holds in particular of the noise elements every
    extractor removes first. *)
Theorem removed_elements_are_gone (group : list selector) (doc : document)
    (sel : selector) :
  In sel group ->
  select sel (remove group doc) = []
  /\ text (remove group doc) sel = []
  /\ first_text (remove group doc) sel = []
  /\ remove group (remove group doc) = remove group doc.
Proof.
  intros Hin.
  assert (Hsel : select sel (remove group doc) = []).
  { unfold select, remove. apply concat_map_concat_nil.
    apply Forall_forall. intros n _. by apply remove_from_select. }
  split; [done|]. unfold text, first_text. rewrite Hsel.
  split; [done|]. split; [done|].
  unfold remove. apply concat_map_concat_id.
  apply Forall_forall. intros n _. apply remove_from_again.
Qed.

(** X2 on the sample page: the [nav] and [footer] elements are noise. *)
Lemma removed_elements_are_gone_sample :
  select (Tag "nav") (remove noise sample_page) = []
  /\ text (remove noise sample_page) (Tag "footer") = [].
Proof.
  split.
  - apply (removed_elements_are_gone noise sample_page (Tag "nav")).
    unfold noise. simpl. tauto.
  - apply (removed_elements_are_gone noise sample_page (Tag "footer")).
    unfold noise. simpl. tauto.
Defined.

(** ** The batch loop, item by item *)

Arguments ExtractToExcel.contentOf : simpl never.

(** The message the loop settles on for an error it catches. *)
Lemma urlErrorMessage_classified (error : exn) :
  let m := ExtractToExcel.urlErrorMessage error in
  match error with
  | AxiosError status apiMessage message =>
    (status = Some 402 ->
     m = js "OpenRouter API: Payment required. Please check your account balance.")
    /\ (status = Some 401 -> m = js "OpenRouter API: Invalid API key.")
    /\ (status = Some 429 ->
        m = js "OpenRouter API: Rate limit exceeded. Please try again later.")
    /\ (forall n, status = Some n ->
                  n <> 402 -> n <> 401 -> n <> 429 -> n <> 0 ->
        m = js "OpenRouter API Error (" ++ N_to_js n ++ js "): "
            ++ match apiMessage with
               | Some (c :: a) => c :: a
               | _ => message
               end)
    /\ (status = None \/ status = Some 0 -> m = js "Network error: " ++ message)
  | JsError _ message => m = message
  end.
Proof.
  destruct error as [status apiMessage message|name message]; [|done].
  cbv zeta. unfold ExtractToExcel.urlErrorMessage, is_status.
  split; [intros ->; by rewrite bool_decide_eq_true_2|].
  split; [intros ->; rewrite bool_decide_eq_false_2 by done;
          by rewrite bool_decide_eq_true_2|].
  split; [intros ->; rewrite !bool_decide_eq_false_2 by done;
          by rewrite bool_decide_eq_true_2|].
  split.
  - intros n -> H402 H401 H429 H0.
    rewrite !bool_decide_eq_false_2 by congruence.
    unfold truthy_status. destruct (N.eqb_spec n 0) as [|_]; [done|].
    cbn [negb]. unfold apiErrorMessage, or_else, status_text.
    by destruct apiMessage as [[|c a]|].
  - intros [->| ->]; by rewrite !bool_decide_eq_false_2 by done.
Qed.

Section BatchItems.

Context (cheerio_load : json -> jsstring + document).
Context (JSON_parse : jsstring -> jsstring + object).
Context {S : Type} (w : world S).

Local Abbreviation processUrls :=
  (ExtractToExcel.processUrls cheerio_load JSON_parse).

Local Abbreviation contentOf := ExtractToExcel.contentOf.

(** One turn of the loop, in terms of the answers of the environment. *)
Lemma processUrls_step url rest apiKey jobsData s :
  run w (processUrls (url :: rest) apiKey jobsData) s =
  match on_get w s url with
  | (inl error, s1) =>
    let '(t, s2) := on_now w s1 in
    logged (Got url (inl error))
      (logged (Clock t)
         (run w (processUrls rest apiKey
                   (jobsData ++
                    [fallbackJob (js "Error processing URL: "
                                  ++ ExtractToExcel.urlErrorMessage error)
                       url (toISOString t)])) s2))
  | (inr data, s1) =>
    match cheerio_load data with
    | inl message =>
      let '(t, s2) := on_now w s1 in
      logged (Got url (inr data))
        (logged (Clock t)
           (run w (processUrls rest apiKey
                     (jobsData ++
                      [fallbackJob (js "Error processing URL: " ++ message)
                         url (toISOString t)])) s2))
    | inr loaded =>
      let '(answer, s2) :=
        on_post w s1 (structuringRequest (contentOf loaded) apiKey) in
      let '(t, s3) := on_now w s2 in
      logged (Got url (inr data))
        (logged (Posted (structuringRequest (contentOf loaded) apiKey) answer)
           (logged (Clock t)
              (logged (Slept 1000)
                 (run w (processUrls rest apiKey
                           (jobsData ++
                            [match parseReply JSON_parse answer with
                             | inr structuredData =>
                               withSource structuredData url (toISOString t)
                             | inl error =>
                               fallbackJob
                                 (ExtractToExcel.diagnostic
                                    (ExtractToExcel.errorMessage_of error)
                                    (contentOf loaded))
                                 url (toISOString t)
                             end])) s3))))
    end
  end.
Proof.
  simpl. destruct (on_get w s url) as [[error|data] s1]; simpl.
  - by destruct (on_now w s1) as [t s2].
  - destruct (cheerio_load data) as [message|loaded]; simpl.
    + by destruct (on_now w s1) as [t s2].
    + destruct (on_post w s1 _) as [answer s2]; simpl.
      destruct (parseReply JSON_parse answer) as [error|structuredData]; simpl;
        by destruct (on_now w s2) as [t s3].
Qed.

(** Takes one turn of the loop in the goal, whatever the environment
    answers. *)
Ltac one_turn url data message loaded answer t :=
  rewrite processUrls_step;
  match goal with
  | |- context [on_get w ?s url] =>
    let s1 := fresh "s1" in
    destruct (on_get w s url) as [[?error|data] s1];
    [ destruct (on_now w s1) as [t ?s2]
    | destruct (cheerio_load data) as [message|loaded] eqn:?Eload;
      [ destruct (on_now w s1) as [t ?s2]
      | destruct (on_post w s1 _) as [answer ?s2];
        match goal with
        | |- context [on_now w ?s2] => destruct (on_now w s2) as [t ?s3]
        end ] ]
  end.

(** The loop over a list of URLs followed by another one is the loop over
    the first list, then the loop over the second one from the records and
    the state of the environment the first one left. *)
Lemma processUrls_app urls urls' apiKey jobsData s :
  run w (processUrls (urls ++ urls') apiKey jobsData) s =
  let o := run w (processUrls urls apiKey jobsData) s in
  let o' := run w (processUrls urls' apiKey (value o)) (final o) in
  Outcome (value o') (trace o ++ trace o') (final o').
Proof.
  revert jobsData s. induction urls as [|url rest IH]; intros jobsData s.
  - simpl. by destruct (run w (processUrls urls' apiKey jobsData) s).
  - rewrite <- app_comm_cons, !processUrls_step.
    destruct (on_get w s url) as [[error|data] s1].
    + destruct (on_now w s1) as [t s2]. by rewrite IH.
    + destruct (cheerio_load data) as [message|loaded].
      * destruct (on_now w s1) as [t s2]. by rewrite IH.
      * destruct (on_post w s1 _) as [answer s2].
        destruct (on_now w s2) as [t s3]. by rewrite IH.
Qed.

(** The requests sent to the service are the structuring requests for the
    pages that were fetched and loaded. *)
Lemma processUrls_posted urls apiKey jobsData s :
  let tr := trace (run w (processUrls urls apiKey jobsData) s) in
  posted tr
  = omap (fun e => match e with
                   | Got _ (inr data) =>
                     match cheerio_load data with
                     | inr loaded =>
                       Some (structuringRequest (contentOf loaded) apiKey)
                     | inl _ => None
                     end
                   | _ => None
                   end) tr.
Proof.
  revert jobsData s. induction urls as [|url rest IH]; intros jobsData s.
  - done.
  - cbv zeta. one_turn url data message loaded answer t; simpl;
      rewrite ?Eload; [apply IH|apply IH|f_equal; apply IH].
Qed.

(** Every structuring call is followed by one wait of 1000 ms, and there
    is no other wait. *)
Lemma processUrls_waits urls apiKey jobsData s :
  let tr := trace (run w (processUrls urls apiKey jobsData) s) in
  waits tr = map (fun _ => 1000) (posted tr).
Proof.
  revert jobsData s. induction urls as [|url rest IH]; intros jobsData s.
  - done.
  - cbv zeta. one_turn url data message loaded answer t; simpl;
      [apply IH|apply IH|f_equal; apply IH].
Qed.

(** The clock is read once per URL, and the readings are the timestamps of
    the records, in order. *)
Lemma processUrls_clock urls apiKey jobsData s :
  let o := run w (processUrls urls apiKey jobsData) s in
  exists news,
    value o = jobsData ++ news
    /\ map (get_prop (js "extractedAt")) news
       = map (fun t => Some (JStr (toISOString t))) (clock_readings (trace o))
    /\ length (clock_readings (trace o)) = length urls.
Proof.
  revert jobsData s. induction urls as [|url rest IH]; intros jobsData s.
  - exists []. simpl. by rewrite app_nil_r.
  - cbv zeta. one_turn url data message loaded answer t;
      loop_ih IH as (news & Hv & Ht & Hl) with job;
      exists (job :: news); subst job;
      simpl; rewrite Hv, <- app_assoc; (split; [done|]);
      simpl in Ht, Hl; rewrite Ht, Hl; (split; [|done]); [done|done|].
    f_equal. destruct (parseReply JSON_parse answer); [done|].
    apply withSource_extractedAt.
Qed.

(** What becomes of each URL. *)
Lemma processUrls_outcomes urls apiKey jobsData s :
  let o := run w (processUrls urls apiKey jobsData) s in
  exists news,
    value o = jobsData ++ news
    /\ Forall2
         (fun '(url, page) job =>
            exists t,
              match page with
              | inl error =>
                job = fallbackJob (js "Error processing URL: "
                                   ++ ExtractToExcel.urlErrorMessage error)
                        url (toISOString t)
              | inr data =>
                match cheerio_load data with
                | inl message =>
                  job = fallbackJob (js "Error processing URL: " ++ message)
                          url (toISOString t)
                | inr loaded =>
                  exists answer,
                    In (Posted (structuringRequest (contentOf loaded) apiKey)
                          answer) (trace o)
                    /\ job = match parseReply JSON_parse answer with
                             | inr structuredData =>
                               withSource structuredData url (toISOString t)
                             | inl error =>
                               fallbackJob
                                 (ExtractToExcel.diagnostic
                                    (ExtractToExcel.errorMessage_of error)
                                    (contentOf loaded))
                                 url (toISOString t)
                             end
                end
              end)
         (got_answers (trace o)) news.
Proof.
  revert jobsData s. induction urls as [|url rest IH]; intros jobsData s.
  - exists []. simpl. rewrite app_nil_r. split; [done|constructor].
  - assert (Hlater : forall (tr : list event) (pre : list event) news,
              Forall2
                (fun '(url, page) job =>
                   exists t,
                     match page with
                     | inl error =>
                       job = fallbackJob (js "Error processing URL: "
                                          ++ ExtractToExcel.urlErrorMessage error)
                               url (toISOString t)
                     | inr data =>
                       match cheerio_load data with
                       | inl message =>
                         job = fallbackJob
                                 (js "Error processing URL: " ++ message)
                                 url (toISOString t)
                       | inr loaded =>
                         exists answer,
                           In (Posted (structuringRequest (contentOf loaded)
                                         apiKey) answer) tr
                           /\ job = match parseReply JSON_parse answer with
                                    | inr structuredData =>
                                      withSource structuredData url
                                        (toISOString t)
                                    | inl error =>
                                      fallbackJob
                                        (ExtractToExcel.diagnostic
                                           (ExtractToExcel.errorMessage_of error)
                                           (contentOf loaded))
                                        url (toISOString t)
                                    end
                       end
                     end)
                (got_answers tr) news ->
              Forall2
                (fun '(url, page) job =>
                   exists t,
                     match page with
                     | inl error =>
                       job = fallbackJob (js "Error processing URL: "
                                          ++ ExtractToExcel.urlErrorMessage error)
                               url (toISOString t)
                     | inr data =>
                       match cheerio_load data with
                       | inl message =>
                         job = fallbackJob
                                 (js "Error processing URL: " ++ message)
                                 url (toISOString t)
                       | inr loaded =>
                         exists answer,
                           In (Posted (structuringRequest (contentOf loaded)
                                         apiKey) answer) (pre ++ tr)
                           /\ job = match parseReply JSON_parse answer with
                                    | inr structuredData =>
                                      withSource structuredData url
                                        (toISOString t)
                                    | inl error =>
                                      fallbackJob
                                        (ExtractToExcel.diagnostic
                                           (ExtractToExcel.errorMessage_of error)
                                           (contentOf loaded))
                                        url (toISOString t)
                                    end
                       end
                     end)
                (got_answers tr) news).
    { intros tr pre news HF. eapply Forall2_impl; [exact HF|].
      intros [u [e|d]] job (t' & H); exists t'; [done|].
      destruct (cheerio_load d); [done|].
      destruct H as (a & Hin & ->). exists a. split; [|done].
      apply in_or_app. by right. }
    cbv zeta. one_turn url data message loaded answer t;
      loop_ih IH as (news & Hv & HF) with job; exists (job :: news); subst job;
      simpl; rewrite Hv, <- app_assoc; (split; [done|]).
    + constructor; [by exists t|]. exact (Hlater _ [_; _] _ HF).
    + constructor; [exists t; by rewrite Eload|].
      exact (Hlater _ [_; _] _ HF).
    + constructor.
      * exists t. rewrite Eload. exists answer. split; [right; by left|done].
      * exact (Hlater _ [_; _; _; _] _ HF).
Qed.

End BatchItems.

(** X3. The batch loop is sequential: processing a list of URLs followed by
    another list is processing the first list and then the second one,
    starting from the records and from the state of the environment the
    first run left; value, trace and final state compose accordingly. *)
Theorem batch_loop_composes
    (cheerio_load : json -> jsstring + document)
    (JSON_parse : jsstring -> jsstring + object)
    {S : Type} (w : world S) (s : S) (urls urls' : list jsstring)
    (apiKey : jsstring) (jobsData : list object) :
  let both := run w (ExtractToExcel.processUrls cheerio_load JSON_parse
                       (urls ++ urls') apiKey jobsData) s in
  let o := run w (ExtractToExcel.processUrls cheerio_load JSON_parse
                    urls apiKey jobsData) s in
  let o' := run w (ExtractToExcel.processUrls cheerio_load JSON_parse
                     urls' apiKey (value o)) (final o) in
  value both = value o' /\ trace both = trace o ++ trace o'
  /\ final both = final o'.
Proof.
  intros both o o'. subst both. by rewrite processUrls_app.
Qed.

Lemma pages_le_fetched {A} (f : json -> option A) (tr : list event) :
  (length (omap (fun e => match e with
                          | Got _ (inr data) => f data
                          | _ => None
                          end) tr)
   <= length (fetched tr))%nat.
Proof.
  unfold fetched. induction tr as [|e tr IH]; [done|].
  destruct e as [u [e|d]| | |]; cbn [omap list_omap length] in *; try lia.
  destruct (f d); cbn [length]; lia.
Qed.



Lemma got_answers_fetched (tr : list event) :
  map fst (got_answers tr) = fetched tr.
Proof.
  unfold got_answers, fetched. induction tr as [|e tr IH]; [done|].
  destruct e; cbn [omap list_omap map fst] in *; by rewrite ?IH.
Qed.


(** The run of the batch route on a request that passes its checks. *)
Lemma batch_POST_run
    (cheerio_load : json -> jsstring + document)
    (JSON_parse : jsstring -> jsstring + object)
    (XLSX_write : workbook -> jsstring + Buffer)
    {S : Type} (w : world S) (s : S) (urls : list jsstring)
    (apiKey : jsstring) :
  urls <> [] -> apiKey <> [] ->
  let loop := run w (ExtractToExcel.processUrls cheerio_load JSON_parse
                       urls apiKey []) s in
  run w (ExtractToExcel.POST cheerio_load JSON_parse XLSX_write
           (Fields (ExtractToExcel.Request (Some urls) (Some apiKey)))) s
  = match ExtractToExcel.createExcelFile XLSX_write (value loop) with
    | inr excelBuffer =>
      let '(t, s') := on_now w (final loop) in
      Outcome (Spreadsheet 200 excelBuffer
                 (jsq "attachment; filename='job_data_"
                  ++ before_T (toISOString t) ++ jsq ".xlsx'"))
        (trace loop ++ [Clock t]) s'
    | inl error =>
      Outcome (Json (snd (ExtractToExcel.failure error))
                 (error_body (fst (ExtractToExcel.failure error))))
        (trace loop) (final loop)
    end.
Proof.
  intros Hurls Hkey loop. unfold ExtractToExcel.POST.
  destruct urls as [|url rest]; [done|]. destruct apiKey as [|c key]; [done|].
  cbv beta iota delta [read_body ExtractToExcel.urls ExtractToExcel.apiKey].
  rewrite run_bind. cbv zeta. fold loop.
  destruct (ExtractToExcel.createExcelFile XLSX_write (value loop))
    as [error|excelBuffer]; simpl.
  - destruct (ExtractToExcel.failure error). simpl. by rewrite app_nil_r.
  - by destruct (on_now w (final loop)).
Qed.

(** ** The preview route *)

Lemma or_else_nonempty (a : option jsstring) (b : jsstring) :
  b <> [] -> or_else a b <> [].
Proof.
  intros Hb. unfold or_else. destruct a as [[|c m]|]; simpl; done.
Qed.

Lemma js_app_nonempty (prefix : string) (rest : jsstring) :
  js prefix <> [] -> js prefix ++ rest <> [].
Proof. intros H. by destruct (js prefix). Qed.

Lemma structuringFailure_nonempty (error : exn) :
  PreviewExtraction.structuringFailure error <> [].
Proof.
  destruct error as [status apiMessage message|name message];
    unfold PreviewExtraction.structuringFailure.
  - destruct (is_status status 402); [by vm_compute|].
    destruct (is_status status 401); [by vm_compute|].
    destruct (is_status status 429); [by vm_compute|].
    apply js_app_nonempty. by vm_compute.
  - apply js_app_nonempty. by vm_compute.
Qed.


(** ** The stand-alone extraction route *)

(** X9. The extraction route answers 400 when the URL is missing or empty,
    without fetching; 500 with one fixed message when the body of the
    request cannot be read, when the fetch of the URL fails, whatever the
    error was, and when the fetched page cannot be loaded; and otherwise
    the extraction of the loaded page, with at most 5 sub-headings and the
    URL of the request. It fetches at most once, and it never calls the
    structuring service, reads the clock or waits. *)
Theorem extract_content_responses
    (cheerio_load : json -> jsstring + document)
    {S : Type} (w : world S) (s : S)
    (request : request_body (option jsstring)) :
  let o := run w (ExtractContent.POST cheerio_load request) s in
  let failed :=
    ExtractContent.Failed 500 (js "Failed to extract content from URL") in
  match request with
  | NotJson _ | NullBody _ => value o = failed /\ trace o = []
  | Fields None | Fields (Some []) =>
    value o = ExtractContent.Failed 400 (js "URL is required") /\ trace o = []
  | Fields (Some url) =>
    match on_get w s url with
    | (inl error, _) => value o = failed /\ trace o = [Got url (inl error)]
    | (inr data, _) =>
      match cheerio_load data with
      | inl _ => value o = failed /\ trace o = [Got url (inr data)]
      | inr loaded =>
        exists body,
          value o = ExtractContent.Extracted body
          /\ trace o = [Got url (inr data)]
          /\ body = ExtractContent.extract loaded url
          /\ ExtractContent.url body = url
          /\ (length (ExtractContent.h2Elements body) <= 5)%nat
      end
    end
  end.
Proof.
  intros o failed. subst o failed. unfold ExtractContent.POST.
  destruct request as [message|message|[[|c url]|]]; simpl; try done.
  destruct (on_get w s (c :: url)) as [[error|data] s1]; simpl; [done|].
  destruct (cheerio_load data) as [message|loaded]; simpl; [done|].
  eexists. repeat split. simpl. rewrite length_take. lia.
Qed.

(** ** The structuring request *)

(** X11. The structuring request carries the fixed instructions around the
    first 4000 characters of the content and nothing of what follows them:
    two contents that agree on their first 4000 characters give the same
    request, and the message has the 649 characters of the instructions
    plus at most 4000. *)
Theorem structuring_request_sees_4000
    (content content' apiKey : jsstring) :
  (take 4000 content = take 4000 content' ->
   structuringRequest content apiKey = structuringRequest content' apiKey)
  /\ rq_content (structuringRequest content apiKey)
     = structurePrompt_head ++ take 4000 content ++ structurePrompt_tail
  /\ length (rq_content (structuringRequest content apiKey))
     = (649 + min 4000 (length content))%nat
  /\ rq_apiKey (structuringRequest content apiKey) = apiKey.
Proof.
  unfold structuringRequest, structurePrompt, substring0.
  cbn [rq_content rq_apiKey].
  split; [by intros ->|]. split; [done|]. split; [|done].
  rewrite !length_app, length_take.
  assert (length structurePrompt_head = 60%nat) as -> by (by vm_compute).
  assert (length structurePrompt_tail = 589%nat) as -> by (by vm_compute).
  lia.
Qed.

(** ** Layout of the report *)

Lemma summaryRow_headers (job : object) (r : row) :
  ExtractToExcel.summaryRow job = inr r ->
  headers r = [js "職種"; js "会社名"; js "勤務地"; js "最低給与"; js "最高給与";
               js "給与タイプ"; js "雇用形態"; js "URL"; js "抽出日時"].
Proof.
  unfold ExtractToExcel.summaryRow.
  destruct (get_prop (js "salary") job) as [[| | | | |]|]; simpl;
    by intros [= <-].
Qed.

Lemma detailRow_layout (index : nat) (job : object) (r : row) :
  ExtractToExcel.detailRow index job = inr r ->
  headers r = [js "No."; js "職種"; js "会社名"; js "勤務地"; js "給与詳細";
               js "勤務時間"; js "休日"; js "福利厚生"; js "必要経験";
               js "必要スキル"; js "学歴要件"; js "業務内容"; js "応募方法";
               js "URL"]
  /\ head r = Some (js "No.", Number (N.of_nat index + 1)).
Proof.
  unfold ExtractToExcel.detailRow. cbv zeta.
  repeat match goal with
         | |- context [and_then ?x _] =>
           destruct x; cbn [and_then]; [done|]
         end.
  by intros [= <-].
Qed.

Lemma detailRows_layout (index : nat) (jobsData : list object)
    (rows : list row) :
  ExtractToExcel.detailRows index jobsData = inr rows ->
  forall i r, rows !! i = Some r ->
    headers r = [js "No."; js "職種"; js "会社名"; js "勤務地"; js "給与詳細";
                 js "勤務時間"; js "休日"; js "福利厚生"; js "必要経験";
                 js "必要スキル"; js "学歴要件"; js "業務内容"; js "応募方法";
                 js "URL"]
    /\ head r = Some (js "No.", Number (N.of_nat (index + i) + 1)).
Proof.
  revert index rows. induction jobsData as [|job rest IH]; intros index rows;
    simpl.
  - intros [= <-] i r Hi. by rewrite lookup_nil in Hi.
  - destruct (ExtractToExcel.detailRow index job) as [e|r0] eqn:E0; simpl;
      [done|].
    destruct (ExtractToExcel.detailRows (Datatypes.S index) rest) as [e|rs] eqn:E;
      simpl; [done|].
    intros [= <-] [|i] r Hi; simpl in Hi.
    + injection Hi as <-. rewrite Nat.add_0_r. by apply (detailRow_layout _ job).
    + replace (index + Datatypes.S i)%nat with (Datatypes.S index + i)%nat by lia.
      by apply (IH _ _ E).
Qed.

Lemma map_throwing_Forall {A B} (f : A -> exn + B) (P : B -> Prop)
    (l : list A) (bs : list B) :
  (forall a b, f a = inr b -> P b) ->
  map_throwing f l = inr bs -> Forall P bs.
Proof.
  intros Hf. revert bs. induction l as [|a l IH]; intros bs; simpl.
  - intros [= <-]. constructor.
  - destruct (f a) as [e|b] eqn:E; simpl; [done|].
    destruct (map_throwing f l) as [e|bs']; simpl; [done|].
    intros [= <-]. constructor; [by eapply Hf|by apply IH].
Qed.

(** X12. Whenever the report is built, its workbook has the three sheets
    in their order; every row of the listing has the same nine columns and
    every row of the detail sheet the same fourteen, whatever the record
    holds; and the rows of the detail sheet are numbered from 1 in the order
    of the records. The report is what the writer returns for that
    workbook. *)
Theorem report_layout (XLSX_write : workbook -> jsstring + Buffer)
    (jobsData : list object) (excelBuffer : Buffer) :
  ExtractToExcel.createExcelFile XLSX_write jobsData = inr excelBuffer ->
  exists summaryData detailData statsData,
    let workbook := [ (js "求人一覧", summaryData); (js "詳細情報", detailData);
                      (js "統計情報", statsData) ] in
    ExtractToExcel.buildWorkbook jobsData = inr workbook
    /\ XLSX_write workbook = inr excelBuffer
    /\ Forall (fun r =>
                 headers r
                 = [js "職種"; js "会社名"; js "勤務地"; js "最低給与";
                    js "最高給与"; js "給与タイプ"; js "雇用形態"; js "URL";
                    js "抽出日時"]) summaryData
    /\ (forall i r, detailData !! i = Some r ->
          headers r
          = [js "No."; js "職種"; js "会社名"; js "勤務地"; js "給与詳細";
             js "勤務時間"; js "休日"; js "福利厚生"; js "必要経験";
             js "必要スキル"; js "学歴要件"; js "業務内容"; js "応募方法";
             js "URL"]
          /\ head r = Some (js "No.", Number (N.of_nat i + 1)))
    /\ Forall (fun r => headers r = [js "項目"; js "値"]) statsData.
Proof.
  unfold ExtractToExcel.createExcelFile, ExtractToExcel.buildWorkbook.
  destruct (map_throwing ExtractToExcel.summaryRow jobsData)
    as [e|summaryData] eqn:Es; [done|]. cbn [and_then].
  destruct (ExtractToExcel.detailRows 0 jobsData) as [e|detailData] eqn:Ed;
    [done|]. cbn [and_then].
  destruct (ExtractToExcel.computeStats jobsData) as [e|stats] eqn:Ec;
    [done|]. cbn [and_then].
  destruct (XLSX_write _) as [message|buffer] eqn:Ew; [done|].
  intros [= <-]. eexists _, _, _. cbv zeta.
  split; [done|]. split; [exact Ew|]. split; [|split].
  - eapply map_throwing_Forall; [|exact Es]. apply summaryRow_headers.
  - intros i r Hi. by apply (detailRows_layout 0 jobsData detailData Ed i r).
  - unfold ExtractToExcel.statsData, ExtractToExcel.entryRows.
    rewrite !Forall_app. repeat split;
      try (by repeat constructor);
      apply Forall_forall; intros r Hr;
      apply list_elem_of_fmap in Hr as ([k c] & -> & _); done.
Qed.

(** X12 on two sample records. *)
Lemma report_layout_sample :
  exists excelBuffer,
    ExtractToExcel.createExcelFile sample_write
      [ sampleStructured (JStr (js "Engineer")) JNull JNull;
        fallbackJob (js "Error processing URL: timeout") (js "https://b.example")
          (js "2023-11-14T22:13:20.000Z") ]
    = inr excelBuffer
    /\ exists summaryData detailData statsData,
         sample_write [ (js "求人一覧", summaryData); (js "詳細情報", detailData);
                        (js "統計情報", statsData) ] = inr excelBuffer
         /\ forall i r, detailData !! i = Some r ->
              head r = Some (js "No.", Number (N.of_nat i + 1)).
Proof.
  destruct (ExtractToExcel.createExcelFile _ _) as [e|excelBuffer] eqn:E;
    [by vm_compute in E|].
  exists excelBuffer. split; [done|].
  destruct (report_layout _ _ _ E) as (summary & detail & st & _ & Hw & _ & Hd & _).
  exists summary, detail, st. split; [exact Hw|].
  intros i r Hi. by destruct (Hd i r Hi).
Defined.

(** ** Reports of degraded records *)

Lemma countJob_fallback (stats : statistics) (d u t : jsstring) :
  ExtractToExcel.countJob stats (fallbackJob d u t) = inr stats.
Proof. by destruct stats. Qed.

Lemma computeStats_fallback (jobsData : list object) :
  Forall (fun job => exists d u t, job = fallbackJob d u t) jobsData ->
  ExtractToExcel.computeStats jobsData
  = inr {| total := N.of_nat (length jobsData); byJobTitle := ∅;
           byLocation := ∅; byEmploymentType := ∅ |}.
Proof.
  unfold ExtractToExcel.computeStats. generalize (N.of_nat (length jobsData)).
  intros n.
  generalize {| total := n; byJobTitle := ∅; byLocation := ∅;
                byEmploymentType := ∅ |}.
  intros stats HF. induction HF as [|job rest (d & u & t & ->) _ IH];
    [done|].
  cbn [foldl_throwing]. rewrite countJob_fallback. exact IH.
Qed.

Lemma detailRows_fallback (index : nat) (jobsData : list object) :
  Forall (fun job => exists d u t, job = fallbackJob d u t) jobsData ->
  exists rows,
    ExtractToExcel.detailRows index jobsData = inr rows
    /\ Forall2 (fun job r =>
                  exists d u t,
                    job = fallbackJob d u t
                    /\ In (js "業務内容", Value (Some (JStr d))) r)
         jobsData rows.
Proof.
  intros HF. revert index.
  induction HF as [|job rest (d & u & t & ->) _ IH]; intros index.
  - exists []. split; [done|constructor].
  - destruct (IH (Datatypes.S index)) as (rows & Hrows & HF2).
    cbn [ExtractToExcel.detailRows]. rewrite Hrows.
    eexists (_ :: rows). split; [reflexivity|].
    constructor; [|done]. exists d, u, t. split; [done|].
    do 11 right. left. f_equal. unfold or_empty. by destruct d.
Qed.

(** X14. The workbook of a batch in which every record is degraded (and of
    the empty batch) is always built: no such record makes the builder
    throw. Listing and detail have one row per record, the detail row of a
    record shows its diagnostic in the description column, and the
    statistics sheet is the total followed by the three headings with no
    entry under them. The report is then what the writer makes of this
    workbook: its bytes, or the error it throws. *)
Theorem report_of_degraded_batch (XLSX_write : workbook -> jsstring + Buffer)
    (jobsData : list object) :
  Forall (fun job => exists d u t, job = fallbackJob d u t) jobsData ->
  exists summaryData detailData,
    let workbook :=
      [ (js "求人一覧", summaryData);
        (js "詳細情報", detailData);
        (js "統計情報",
         [ ExtractToExcel.statRow (js "総求人数")
             (Number (N.of_nat (length jobsData)));
           ExtractToExcel.blankRow;
           ExtractToExcel.statRow (js "職種別集計") (text_cell []);
           ExtractToExcel.blankRow;
           ExtractToExcel.statRow (js "勤務地別集計") (text_cell []);
           ExtractToExcel.blankRow;
           ExtractToExcel.statRow (js "雇用形態別集計") (text_cell []) ]) ] in
    ExtractToExcel.buildWorkbook jobsData = inr workbook
    /\ ExtractToExcel.createExcelFile XLSX_write jobsData
       = match XLSX_write workbook with
         | inr excelBuffer => inr excelBuffer
         | inl message => inl (JsError "Error" message)
         end
    /\ length summaryData = length jobsData
    /\ Forall2 (fun job r =>
                  exists d u t,
                    job = fallbackJob d u t
                    /\ In (js "業務内容", Value (Some (JStr d))) r)
         jobsData detailData.
Proof.
  intros HF.
  destruct (detailRows_fallback 0 jobsData HF) as (detailData & Hd & HF2).
  assert (Hall : forallb rows_fit jobsData = true).
  { apply forallb_forall. intros job Hin. rewrite Forall_forall in HF.
    destruct (HF job ltac:(by apply list_elem_of_In)) as (d & u & t & ->).
    by vm_compute. }
  pose proof (summaryRows_succeed jobsData Hall) as Hs.
  unfold ExtractToExcel.createExcelFile, ExtractToExcel.buildWorkbook.
  destruct (map_throwing ExtractToExcel.summaryRow jobsData)
    as [e|summaryData] eqn:Es; [done|].
  cbn [and_then]. rewrite Hd. cbn [and_then].
  rewrite (computeStats_fallback jobsData HF). cbn [and_then].
  exists summaryData, detailData. cbv zeta.
  unfold ExtractToExcel.statsData, ExtractToExcel.entryRows.
  cbn [total byJobTitle byLocation byEmploymentType].
  rewrite map_to_list_empty. cbn [map app].
  split; [done|]. split; [done|].
  split; [by apply map_throwing_length in Es|done].
Qed.

(** X14 on a batch of two failed fetches. *)
Lemma report_of_degraded_batch_sample :
  exists workbook,
    ExtractToExcel.buildWorkbook
      [ fallbackJob (js "Error processing URL: timeout") (js "https://a.example")
          (js "2023-11-14T22:13:20.000Z");
        fallbackJob (js "Error processing URL: timeout") (js "https://b.example")
          (js "2023-11-14T22:13:21.000Z") ]
    = inr workbook.
Proof.
  edestruct (report_of_degraded_batch sample_write
               [ fallbackJob (js "Error processing URL: timeout")
                   (js "https://a.example") (js "2023-11-14T22:13:20.000Z");
                 fallbackJob (js "Error processing URL: timeout")
                   (js "https://b.example") (js "2023-11-14T22:13:21.000Z") ])
    as (summaryData & detailData & H & _).
  - repeat constructor; by eexists _, _, _.
  - by eexists.
Defined.

(** A record that is degraded does not keep the writer from refusing the
    workbook: the URL is put in a cell as it is. *)
Example degraded_batch_refused_by_writer :
  ExtractToExcel.createExcelFile sample_write
    [ fallbackJob (js "Error processing URL: timeout") (replicate (N.to_nat 32768) 97)
        (js "2023-11-14T22:13:20.000Z") ]
  = inl (JsError "Error" (js "Text length must not exceed 32767 characters")).
Proof. by vm_compute. Qed.


(** ** Grouping keys that name members of [Object.prototype] *)

Lemma increment_other (k k' : jsstring) (o : gmap jsstring count) :
  k <> k' -> increment k' o !! k = o !! k.
Proof.
  intros Hne. unfold increment.
  destruct (o !! k') as [[n|s]|].
  - by rewrite lookup_insert_ne.
  - destruct (truthy_str s); by rewrite lookup_insert_ne.
  - destruct (inherited k') as [t|]; [|by rewrite lookup_insert_ne].
    destruct (jsstring_eqb k' (js "__proto__")); [done|].
    by rewrite lookup_insert_ne.
Qed.

Lemma app_1_nonempty (s : jsstring) : s ++ js "1" <> [].
Proof.
  intros H. apply (f_equal length) in H. rewrite length_app in H.
  assert (length (js "1") = 1%nat) as E by (by vm_compute).
  rewrite E in H. simpl in H. lia.
Qed.

Lemma truthy_str_nonempty (s : jsstring) : s <> [] -> truthy_str s = true.
Proof. by destruct s. Qed.

Lemma increment_inherited (k' : jsstring) (o : gmap jsstring count) :
  (forall k, inherited k <> None ->
     (o !! k = None \/ exists s, s <> [] /\ o !! k = Some (Garbled s))
     /\ (k = js "__proto__" -> o !! k = None)) ->
  forall k, inherited k <> None ->
    (increment k' o !! k = None
     \/ exists s, s <> [] /\ increment k' o !! k = Some (Garbled s))
    /\ (k = js "__proto__" -> increment k' o !! k = None).
Proof.
  intros Ho k Hk. destruct (Ho k Hk) as [Hown Hproto].
  destruct (decide (k = k')) as [<-|Hne];
    [|by rewrite (increment_other k k' o Hne)].
  unfold increment. destruct Hown as [Hnone|(s & Hs & Hsome)].
  - rewrite Hnone. destruct (inherited k) as [t|]; [|done].
    destruct (jsstring_eqb k (js "__proto__")) eqn:Ep.
    + rewrite Hnone. split; [by left|done].
    + rewrite lookup_insert_eq. split.
      * right. exists (t ++ js "1"). split; [apply app_1_nonempty|done].
      * intros ->. unfold jsstring_eqb in Ep.
        by rewrite bool_decide_eq_true_2 in Ep.
  - rewrite Hsome, (truthy_str_nonempty s Hs), lookup_insert_eq. split.
    + right. exists (s ++ js "1"). split; [apply app_1_nonempty|done].
    + intros Ep. rewrite (Hproto Ep) in Hsome. done.
Qed.

Lemma tally_fold_inherited (field : jsstring) (jobsData : list object)
    (o o' : gmap jsstring count) :
  (forall k, inherited k <> None ->
     (o !! k = None \/ exists s, s <> [] /\ o !! k = Some (Garbled s))
     /\ (k = js "__proto__" -> o !! k = None)) ->
  foldl_throwing (fun m job => tally (get_prop field job) m) o jobsData
  = inr o' ->
  forall k, inherited k <> None ->
    (o' !! k = None \/ exists s, s <> [] /\ o' !! k = Some (Garbled s))
    /\ (k = js "__proto__" -> o' !! k = None).
Proof.
  revert o. induction jobsData as [|job rest IH]; intros o Ho;
    cbn [foldl_throwing].
  - by intros [= <-].
  - unfold tally at 1.
    destruct (get_prop field job) as [v|]; [|by apply IH].
    destruct (truthy (Some v)); [|by apply IH].
    destruct (ToString v) as [e|key]; [done|]. cbn [and_then].
    apply IH. by apply increment_inherited.
Qed.

(** X15. Whatever the records hold, a grouping key that names a member of
    [Object.prototype] never gets a number in a counting object of the
    statistics, once they are computed: its entry is absent or a text that
    is not empty, and [__proto__] never gets an entry at all. The twelve
    names are listed. *)
Theorem inherited_names_never_counted (jobsData : list object)
    (stats : statistics) :
  ExtractToExcel.computeStats jobsData = inr stats ->
  (forall k,
     inherited k <> None <->
     In k (js "__proto__" :: js "constructor"
           :: map js Object_prototype_methods))
  /\ forall o k,
       In o [byJobTitle stats; byLocation stats; byEmploymentType stats] ->
       inherited k <> None ->
       (forall n, o !! k <> Some (Count n))
       /\ (forall s, o !! k = Some (Garbled s) -> s <> [])
       /\ (k = js "__proto__" -> o !! k = None).
Proof.
  intros Hstats. split.
  - intros k. unfold inherited.
    destruct (jsstring_eqb k (js "__proto__")) eqn:E1.
    { unfold jsstring_eqb in E1. apply bool_decide_eq_true_1 in E1.
      split; [by left|done]. }
    destruct (jsstring_eqb k (js "constructor")) eqn:E2.
    { unfold jsstring_eqb in E2. apply bool_decide_eq_true_1 in E2.
      split; [by right; left|done]. }
    unfold jsstring_eqb in E1, E2.
    apply bool_decide_eq_false_1 in E1, E2.
    destruct (existsb _ Object_prototype_methods) eqn:E3.
    + split; [|done]. intros _. do 2 right.
      apply existsb_exists in E3 as (m & Hm & Hk).
      unfold jsstring_eqb in Hk. apply bool_decide_eq_true_1 in Hk.
      subst k. by apply in_map.
    + split; [done|]. intros [H|[H|H]]; [done|done|].
      apply in_map_iff in H as (m & <- & Hm).
      assert (existsb (fun m0 => jsstring_eqb (js m) (js m0))
                Object_prototype_methods = true) as E4.
      { apply existsb_exists. exists m. split; [done|].
        unfold jsstring_eqb. by apply bool_decide_eq_true_2. }
      by rewrite E4 in E3.
  - intros o k Ho Hk.
    destruct (foldl_countJob _ stats jobsData Hstats) as (_ & Hj & Hl & He).
    cbn [byJobTitle byLocation byEmploymentType] in Hj, Hl, He.
    assert (Hinv : (o !! k = None
                    \/ exists s, s <> [] /\ o !! k = Some (Garbled s))
                   /\ (k = js "__proto__" -> o !! k = None)).
    { assert (Hempty : forall k0, inherited k0 <> None ->
                ((∅ : gmap jsstring count) !! k0 = None
                 \/ exists s, s <> []
                      /\ (∅ : gmap jsstring count) !! k0 = Some (Garbled s))
                /\ (k0 = js "__proto__"
                    -> (∅ : gmap jsstring count) !! k0 = None)).
      { intros k0 _. split; [by left|done]. }
      destruct Ho as [<-|[<-|[<-|[]]]].
      - by apply (tally_fold_inherited _ _ _ _ Hempty Hj).
      - by apply (tally_fold_inherited _ _ _ _ Hempty Hl).
      - by apply (tally_fold_inherited _ _ _ _ Hempty He). }
    destruct Hinv as [[Hnone|(s & Hs & Hsome)] Hproto].
    + rewrite Hnone. done.
    + rewrite Hsome. split; [done|]. split; [by intros s' [= <-]|].
      intros Ep. by rewrite (Hproto Ep) in Hsome.
Qed.

(** X15 on two records whose title is [constructor]. *)
Lemma inherited_names_never_counted_sample :
  let job := sampleStructured (JStr (js "constructor")) JNull JNull in
  exists stats,
    ExtractToExcel.computeStats [job; job] = inr stats
    /\ forall n, byJobTitle stats !! js "constructor" <> Some (Count n).
Proof.
  intros job.
  destruct (ExtractToExcel.computeStats [job; job]) as [e|stats] eqn:E;
    [by vm_compute in E|].
  exists stats. split; [done|].
  destruct (inherited_names_never_counted [job; job] stats E) as [_ H].
  refine (proj1 (H (byJobTitle stats) (js "constructor") _ _)).
  - by left.
  - by vm_compute.
Defined.

(** ** The page of the job extractor *)

Lemma split_lines_cons (s : jsstring) :
  exists line lines, JobExtractorPage.split_lines s = line :: lines.
Proof.
  destruct s as [|c r]; [by exists [], []|]. simpl.
  destruct (c =? 10); [by eexists _, _|].
  destruct (JobExtractorPage.split_lines r); by eexists _, _.
Qed.

(** Splitting distributes over a line break. *)
Lemma split_lines_app (a b : jsstring) :
  JobExtractorPage.split_lines (a ++ 10 :: b)
  = JobExtractorPage.split_lines a ++ JobExtractorPage.split_lines b.
Proof.
  induction a as [|c r IH]; [done|].
  cbn [app JobExtractorPage.split_lines]. rewrite IH.
  destruct (c =? 10); [done|].
  by destruct (split_lines_cons r) as (line & lines & ->).
Qed.

Lemma split_lines_line (s : jsstring) :
  (10 ∉ s) -> JobExtractorPage.split_lines s = [s].
Proof.
  induction s as [|c r IH]; [done|]. intros Hn.
  apply not_elem_of_cons in Hn as [Hc Hr].
  cbn [JobExtractorPage.split_lines]. rewrite (IH Hr).
  by destruct (N.eqb_spec c 10).
Qed.

Lemma split_lines_no_newline (s : jsstring) :
  Forall (fun line => 10 ∉ line) (JobExtractorPage.split_lines s).
Proof.
  induction s as [|c r IH].
  - repeat constructor. apply not_elem_of_nil.
  - cbn [JobExtractorPage.split_lines]. destruct (N.eqb_spec c 10) as [->|Hc].
    + constructor; [apply not_elem_of_nil|done].
    + destruct (JobExtractorPage.split_lines r) as [|line lines].
      * repeat constructor. apply not_elem_of_cons. split; [done|].
        apply not_elem_of_nil.
      * apply Forall_cons in IH as [Hl Hls]. constructor; [|done].
        apply not_elem_of_cons. split; [congruence|done].
Qed.

(** Every character that is not a line break is on one of the lines. *)
Lemma split_lines_elem (s : jsstring) (c : N) :
  c ∈ s -> c <> 10 ->
  exists line, line ∈ JobExtractorPage.split_lines s /\ c ∈ line.
Proof.
  induction s as [|c' r IH]; intros Hin Hc; [by apply elem_of_nil in Hin|].
  cbn [JobExtractorPage.split_lines].
  apply elem_of_cons in Hin as [->|Hin].
  - destruct (N.eqb_spec c' 10) as [->|_]; [done|].
    destruct (JobExtractorPage.split_lines r) as [|line lines];
      eexists; (split; [apply list_elem_of_here|apply list_elem_of_here]).
  - destruct (IH Hin Hc) as (line & Hl & Hcl).
    destruct (c' =? 10).
    + exists line. split; [by apply list_elem_of_further|done].
    + destruct (JobExtractorPage.split_lines r) as [|line0 lines];
        [by apply elem_of_nil in Hl|].
      apply elem_of_cons in Hl as [->|Hl].
      * exists (c' :: line0). split; [apply list_elem_of_here|].
        by apply list_elem_of_further.
      * exists line. split; [by apply list_elem_of_further|done].
Qed.

(** A text trims to nothing exactly when all of it is white space. *)
Lemma trim_empty_iff (s : jsstring) :
  trim s = [] <-> Forall (fun c => is_space c = true) s.
Proof.
  split.
  - intros Ht. destruct (trimStart_suffix s) as (sp & Hs & Hsp).
    destruct (trimEnd_prefix (trimStart s)) as (sp' & Hs' & Hsp').
    fold (trim s) in Hs'. rewrite Ht in Hs'. simpl in Hs'.
    rewrite Hs, Hs'. by apply Forall_app.
  - intros Hall. destruct (trim s) as [|c r] eqn:Et; [done|].
    destruct (trim_ends s) as [Hh _]. rewrite Et in Hh. simpl in Hh.
    destruct (trim_infix s) as (l & r' & Hs). rewrite Et in Hs.
    rewrite Hs in Hall. apply Forall_app in Hall as [_ Hall].
    apply Forall_cons in Hall as [Hc _]. congruence.
Qed.

Lemma is_space_10 : is_space 10 = true.
Proof. done. Qed.

Lemma urlList_elem (urls u : jsstring) :
  u ∈ JobExtractorPage.urlList urls
  <-> u <> [] /\ exists line,
        line ∈ JobExtractorPage.split_lines urls /\ u = trim line.
Proof.
  unfold JobExtractorPage.urlList.
  rewrite list_elem_of_In, filter_In, <- list_elem_of_In, list_elem_of_fmap.
  rewrite bool_decide_eq_true. split.
  - intros [(line & -> & Hl) Hlen]. split; [|by exists line].
    intros E. rewrite E in Hlen. simpl in Hlen. lia.
  - intros [Hne (line & Hl & ->)]. split; [by exists line|].
    destruct (trim line); [done|simpl; lia].
Qed.

Lemma urlList_app (a b : jsstring) :
  JobExtractorPage.urlList (a ++ 10 :: b)
  = JobExtractorPage.urlList a ++ JobExtractorPage.urlList b.
Proof.
  unfold JobExtractorPage.urlList.
  by rewrite split_lines_app, map_app, List.filter_app.
Qed.

Lemma urlList_nonempty (urls : jsstring) :
  trim urls <> [] -> JobExtractorPage.urlList urls <> [].
Proof.
  intros Ht Hnil.
  assert (Hex : Exists (fun c => is_space c <> true) urls).
  { apply not_Forall_Exists; [intros c; apply _|].
    intros Hall. by apply trim_empty_iff in Hall. }
  apply Exists_exists in Hex as (c & Hc & Hsp).
  assert (c <> 10) as Hc10 by (intros ->; by rewrite is_space_10 in Hsp).
  destruct (split_lines_elem urls c Hc Hc10) as (line & Hl & Hcl).
  assert (trim line ∈ JobExtractorPage.urlList urls) as Hin.
  { apply urlList_elem. split; [|by exists line].
    intros E. apply trim_empty_iff in E. rewrite Forall_forall in E.
    by apply Hsp, E. }
  rewrite Hnil in Hin. by apply elem_of_nil in Hin.
Qed.

(** X16. The list of URLs the page makes of its text box: splitting
    distributes over a line break; a text without line break gives its
    trimmed form, or nothing when that is empty; so every entry is not
    empty, has no line break and no white space at either end, and the
    list is empty exactly when the text box holds white space only. *)
Theorem page_url_list (urls : jsstring) :
  (forall a b,
     JobExtractorPage.urlList (a ++ 10 :: b)
     = JobExtractorPage.urlList a ++ JobExtractorPage.urlList b)
  /\ ((10 ∉ urls) ->
      JobExtractorPage.urlList urls
      = if bool_decide (trim urls = []) then [] else [trim urls])
  /\ Forall (fun u => u <> [] /\ (10 ∉ u) /\ trim u = u)
       (JobExtractorPage.urlList urls)
  /\ (JobExtractorPage.urlList urls = [] <-> trim urls = []).
Proof.
  split; [apply urlList_app|]. split; [|split].
  - intros Hn. unfold JobExtractorPage.urlList.
    rewrite (split_lines_line urls Hn). cbn [map List.filter].
    destruct (trim urls) as [|c r]; [done|].
    rewrite bool_decide_eq_true_2 by (simpl; lia).
    by rewrite bool_decide_eq_false_2.
  - apply Forall_forall. intros u Hu.
    apply urlList_elem in Hu as (Hne & line & Hl & ->).
    split; [done|]. split; [|apply trim_trim].
    pose proof (split_lines_no_newline urls) as Hnl.
    rewrite Forall_forall in Hnl. specialize (Hnl line Hl).
    destruct (trim_infix line) as (l & r & Hline). intros H10.
    apply Hnl. rewrite Hline. apply elem_of_app. right.
    apply elem_of_app. by left.
  - split.
    + intros Hnil. destruct (decide (trim urls = [])) as [|Hne]; [done|].
      by apply urlList_nonempty in Hne.
    + intros Ht. destruct (JobExtractorPage.urlList urls) as [|u us] eqn:E;
        [done|].
      assert (u ∈ JobExtractorPage.urlList urls) as Hu
        by (rewrite E; apply list_elem_of_here).
      apply urlList_elem in Hu as (Hne & line & Hl & ->).
      apply trim_empty_iff in Ht. rewrite Forall_forall in Ht.
      exfalso. apply Hne. apply trim_empty_iff, Forall_forall.
      intros c Hc. apply Ht.
      (* every character of a line is a character of the text *)
      clear -Hl Hc. revert line Hl Hc.
      induction urls as [|c' r IH]; intros line Hl Hc.
      * apply list_elem_of_singleton in Hl as ->. done.
      * cbn [JobExtractorPage.split_lines] in Hl.
        destruct (c' =? 10).
        -- apply elem_of_cons in Hl as [->|Hl];
             [by apply elem_of_nil in Hc|].
           apply list_elem_of_further. by apply (IH line).
        -- destruct (JobExtractorPage.split_lines r) as [|line0 lines].
           ++ apply list_elem_of_singleton in Hl as ->.
              apply list_elem_of_singleton in Hc as ->.
              apply list_elem_of_here.
           ++ apply elem_of_cons in Hl as [->|Hl].
              ** apply elem_of_cons in Hc as [->|Hc];
                   [apply list_elem_of_here|].
                 apply list_elem_of_further, (IH line0); [|done].
                 apply list_elem_of_here.
              ** apply list_elem_of_further, (IH line); [|done].
                 by apply list_elem_of_further.
Qed.

(** X17. The download button is enabled exactly when nothing is loading
    and both text boxes hold more than white space. A click on the enabled
    button always posts: the list of URLs, which is then never empty, with
    the credential as typed, not trimmed. So none of the three messages of
    the handler is ever shown: each of its guards repeats what the button
    has checked, or follows from it. *)
Theorem page_download_request (loading : bool) (urls apiKey : jsstring) :
  (JobExtractorPage.downloadDisabled loading urls apiKey = false <->
   loading = false /\ trim urls <> [] /\ trim apiKey <> [])
  /\ (JobExtractorPage.downloadDisabled loading urls apiKey = false ->
      JobExtractorPage.urlList urls <> []
      /\ JobExtractorPage.handleExtractAndDownload urls apiKey
         = inr (ExtractToExcel.Request (Some (JobExtractorPage.urlList urls))
                  (Some apiKey)))
  /\ (forall message,
        JobExtractorPage.handleExtractAndDownload urls apiKey = inl message ->
        JobExtractorPage.downloadDisabled loading urls apiKey = true).
Proof.
  assert (Henabled : JobExtractorPage.downloadDisabled loading urls apiKey
                     = false <->
                     loading = false /\ trim urls <> [] /\ trim apiKey <> []).
  { unfold JobExtractorPage.downloadDisabled.
    destruct loading, (trim urls), (trim apiKey); simpl; split;
      try done; intros (? & ? & ?); done. }
  assert (Hposts : trim urls <> [] -> trim apiKey <> [] ->
            JobExtractorPage.urlList urls <> []
            /\ JobExtractorPage.handleExtractAndDownload urls apiKey
               = inr (ExtractToExcel.Request
                        (Some (JobExtractorPage.urlList urls)) (Some apiKey))).
  { intros Hu Hk. pose proof (urlList_nonempty urls Hu) as Hl.
    split; [done|]. unfold JobExtractorPage.handleExtractAndDownload.
    destruct (trim urls); [done|]. destruct (trim apiKey); [done|].
    cbn [truthy_str negb]. cbv zeta.
    by rewrite bool_decide_eq_false_2
      by (by destruct (JobExtractorPage.urlList urls)). }
  split; [exact Henabled|]. split.
  - intros H. apply Henabled in H as (_ & Hu & Hk). by apply Hposts.
  - intros message Hm.
    destruct (JobExtractorPage.downloadDisabled loading urls apiKey) eqn:E;
      [done|].
    destruct (proj1 Henabled eq_refl) as (_ & Hu & Hk).
    destruct (Hposts Hu Hk) as [_ Hp]. rewrite Hp in Hm. done.
Qed.



(** X19. The preview button is enabled exactly when nothing is loading and
    the box of URLs holds more than white space. A click on the enabled
    button never shows a message: it sends the first entry of the list of
    URLs alone, with the credential trimmed, or with none when that is
    empty. The preview route then never answers 400, it fetches that one
    URL and nothing else, and it calls the service only if a credential
    that is not blank was typed. *)
Theorem page_preview_request
    (cheerio_load : json -> jsstring + document)
    (JSON_parse : jsstring -> jsstring + object)
    {S : Type} (w : world S) (s : S) (loading : bool)
    (urls apiKey : jsstring) :
  (JobExtractorPage.previewDisabled loading urls = false <->
   loading = false /\ trim urls <> [])
  /\ (JobExtractorPage.previewDisabled loading urls = false ->
      exists previewUrl rest,
        let rq := PreviewExtraction.Request (Some previewUrl)
                    (if bool_decide (trim apiKey = []) then None
                     else Some (trim apiKey)) in
        let o := run w (PreviewExtraction.POST cheerio_load JSON_parse
                          (Fields rq)) s in
        JobExtractorPage.urlList urls = previewUrl :: rest
        /\ JobExtractorPage.handlePreview urls apiKey = inr rq
        /\ (forall message, value o <> PreviewExtraction.Failed 400 message)
        /\ fetched (trace o) = [previewUrl]
        /\ (trim apiKey = [] -> posted (trace o) = [])).
Proof.
  assert (Henabled : JobExtractorPage.previewDisabled loading urls = false <->
                     loading = false /\ trim urls <> []).
  { unfold JobExtractorPage.previewDisabled.
    destruct loading, (trim urls); simpl; split; try done;
      intros (? & ?); done. }
  split; [exact Henabled|].
  intros H. apply Henabled in H as (_ & Hu).
  pose proof (urlList_nonempty urls Hu) as Hl.
  destruct (JobExtractorPage.urlList urls) as [|previewUrl rest] eqn:El;
    [done|].
  assert (previewUrl ∈ JobExtractorPage.urlList urls) as Hin
    by (rewrite El; apply list_elem_of_here).
  apply urlList_elem in Hin as [Hne _].
  exists previewUrl, rest. cbv zeta. split; [done|]. split.
  { unfold JobExtractorPage.handlePreview.
    destruct (trim urls); [done|]. cbn [truthy_str negb]. cbv zeta.
    rewrite El. rewrite bool_decide_eq_false_2 by done. cbn [head].
    by destruct (trim apiKey). }
  unfold PreviewExtraction.POST.
  cbv beta iota delta [read_body PreviewExtraction.url PreviewExtraction.apiKey].
  destruct previewUrl as [|c0 previewUrl]; [done|]. simpl.
  destruct (on_get w s (c0 :: previewUrl)) as [[error|data] s1]; simpl.
  - by destruct error.
  - destruct (cheerio_load data) as [message|loaded]; simpl; [done|].
    destruct (trim apiKey) as [|k key]; simpl; [done|].
    destruct (on_post w s1 _) as [answer s2]; simpl.
    destruct (PreviewExtraction.valid (PreviewExtraction.classify answer));
      simpl; [|done].
    destruct (on_post w s2 _) as [answer' s3]; simpl.
    destruct (parseReply JSON_parse answer') as [error|structuredData];
      simpl; [done|].
    by destruct (on_now w s3) as [t s4].
Qed.

